(** * nfl-wins-pool: the worker of [src/worker/worker.js]

    A shallow embedding of the Cloudflare worker that serves the pool
    standings and the weekly game grid, and the properties of it that the
    specification states.

    Conventions of the embedding.
    - A JavaScript number is a [jsnum]: an integer or [NaN].  Week numbers,
      win counts and millisecond timestamps are integral.
    - The upstream documents are records whose fields are all optional, as
      the worker reads them with [?.] and [||].
    - An object used as a dictionary ([map], [winsByAbbr], the KV store) is a
      [gmap] over its own keys; [config.owners] is given by the sequence that
      [Object.entries] enumerates, because the worker iterates it in order.
    - [async] functions run in the monad [M]: a state (the KV store and the
      log of requests sent with [fetchJson]) and an exception.
    - What the platform provides ([Number], [Date.parse],
      [String.prototype.localeCompare], the [Intl] formatter) is the
      interface [Platform]. *)

From Stdlib Require Import ZArith String Ascii List Lia Permutation Sorted.
From Stdlib Require OrderedTypeEx.
From stdpp Require Import base option list gmap strings.

Local Open Scope string_scope.
Local Open Scope Z_scope.

(** ** JavaScript values *)

Inductive jsnum :=
| NaN
| Num (z : Z).

(** [ToBoolean] on a number: [0] and [NaN] are falsy. *)
Definition num_truthy (n : jsnum) : bool :=
  match n with
  | NaN => false
  | Num z => negb (z =? 0)
  end.

(** [a === b] on numbers: [NaN] is equal to nothing. *)
Definition strict_eq (a b : jsnum) : bool :=
  match a, b with
  | Num x, Num y => x =? y
  | _, _ => false
  end.

(** [a < b] on numbers: false when a side is [NaN]. *)
Definition js_lt (a b : jsnum) : bool :=
  match a, b with
  | Num x, Num y => x <? y
  | _, _ => false
  end.


Definition js_add (a b : jsnum) : jsnum :=
  match a, b with
  | Num x, Num y => Num (x + y)
  | _, _ => NaN
  end.

Definition js_sub (a b : jsnum) : jsnum :=
  match a, b with
  | Num x, Num y => Num (x - y)
  | _, _ => NaN
  end.

Definition js_mul (a b : jsnum) : jsnum :=
  match a, b with
  | Num x, Num y => Num (x * y)
  | _, _ => NaN
  end.

(** [a || b] on numbers. *)
Definition num_or (a b : jsnum) : jsnum :=
  if num_truthy a then a else b.

(** [ToBoolean] on a string: only the empty string is falsy. *)
Definition str_truthy (s : string) : bool :=
  negb (String.eqb s "").

(** [ToBoolean] on a field that may be absent. *)
Definition field_truthy (o : option string) : bool :=
  match o with
  | Some s => str_truthy s
  | None => false
  end.

(** [a || b] on optional strings: [a] when it is truthy, else [b]. *)
Definition str_or (a b : option string) : option string :=
  if field_truthy a then a else b.

(** [a || null]: a truthy string or [null]. *)
Definition or_null (a : option string) : option string :=
  if field_truthy a then a else None.

(** [xs?.[0]]. *)
Definition first_of {A} (xs : option (list A)) : option A :=
  match xs with
  | Some (x :: _) => Some x
  | _ => None
  end.

(** The character class [\d]. *)
Definition is_digit (c : ascii) : bool :=
  let n := nat_of_ascii c in
  (Nat.leb 48 n && Nat.leb n 57)%bool.

(** [s.match(/^\d+$/)]: one digit or more and nothing else. *)
Definition matches_digits (s : string) : bool :=
  match list_ascii_of_string s with
  | [] => false
  | cs => forallb is_digit cs
  end.

(** [s.slice(0,10).replaceAll("-","")]. *)
Definition compact_date (s : string) : string :=
  string_of_list_ascii
    (List.filter (λ c, negb (Ascii.eqb c "-"%char))
       (list_ascii_of_string (substring 0 10 s))).

(** ** The platform *)

Class Platform := {
  (** [Number(s)] on a string. *)
  Number_ : string → jsnum;
  (** [Date.parse(s)]: milliseconds since the epoch, or [NaN]. *)
  Date_parse : string → jsnum;
  (** [a.localeCompare(b)]: negative, zero or positive. *)
  localeCompare : string → string → Z;
  (** [ctString(new Date(t))]: the [Intl.DateTimeFormat] rendering. *)
  ctString : Z → string
}.

(** [localeCompare] is a consistent comparator (ECMA-402 requires it of
    every collator). *)
Class ConsistentCollation `{Platform} := {
  localeCompare_antisym : ∀ a b, Z.sgn (localeCompare b a) = - Z.sgn (localeCompare a b);
  localeCompare_trans : ∀ a b c,
    localeCompare a b <= 0 → localeCompare b c <= 0 → localeCompare a c <= 0
}.

(** [Array.prototype.sort(cmp)].  The sort is stable, and for a consistent
    comparator its result is the one stable sorted arrangement of the array
    ([js_sort_unique] below); insertion from the right computes it.  A [NaN]
    from the comparator counts as [0]. *)
Definition cmp_le {A} (cmp : A → A → jsnum) (a b : A) : bool :=
  match cmp a b with
  | NaN => true
  | Num v => v <=? 0
  end.

Fixpoint sort_insert {A} (cmp : A → A → jsnum) (x : A) (l : list A) : list A :=
  match l with
  | [] => [x]
  | y :: l' => if cmp_le cmp x y then x :: y :: l' else y :: sort_insert cmp x l'
  end.

Definition js_sort {A} (cmp : A → A → jsnum) (l : list A) : list A :=
  foldr (sort_insert cmp) [] l.

(** Two elements that the comparator does not tell apart. *)
Definition tied {A} (cmp : A → A → jsnum) (a b : A) : bool :=
  cmp_le cmp a b && cmp_le cmp b a.

(** ** Documents *)

(** The ownership configuration, [pool-config.json].  [owners] is the
    sequence [Object.entries(config.owners)]: owner names are the keys of an
    object, so no name occurs twice in it. *)
Record Config := {
  season : option Z;
  timezone : option string;
  owners : option (list (string * list string));
  unowned : option (list string)
}.

(** An entry of the scoreboard's calendar. *)
Record CalendarEntry := {
  label : option string;
  startDate : option string;
  endDate : option string
}.

Record CalendarSection := {
  entries : option (list CalendarEntry)
}.

(** [leagues[0].calendar] comes in two shapes: an array of sections, or one
    object that carries the entries. *)
Inductive Calendar :=
| CalendarArray (sections : list CalendarSection)
| CalendarObject (section : CalendarSection).

Record League := {
  calendar : option Calendar
}.

Record Root := {
  leagues : option (list League);
  week_number : option Z
}.

Record Team := {
  shortDisplayName : option string;
  name : option string;
  abbreviation : option string
}.

Record Competitor := {
  homeAway : option string;
  is_winner : option bool;
  team : option Team
}.

Record Competition := {
  comp_date : option string;
  competitors : option (list Competitor)
}.

Record Event := {
  ev_date : option string;
  competitions : option (list Competition)
}.

Record WeekData := {
  events : option (list Event)
}.

(** ** Results *)

Record GameRow := {
  kickoff_utc : option string;
  away : string;
  home : string;
  winner : option string;
  awayOwner : string;
  homeOwner : string;
  winningOwner : string
}.

(** The object [fetchWeekGrid] returns; the last three fields are present
    only when a window was found. *)
Record WeekGrid := {
  week : jsnum;
  currentWeek : option Z;
  games : list GameRow;
  week_label : option string;
  grid_startDate : option string;
  grid_endDate : option string
}.

Record TeamRow := {
  tr_team : string;
  abbr : string;
  wins : Z
}.

Record OwnerRow := {
  owner : string;
  total_wins : Z;
  teams : list TeamRow
}.

Record Standings := {
  standings : list OwnerRow;
  unowned_rows : list TeamRow
}.

Inductive Payload :=
| WeekPayload (p_season : option Z) (generated_at_ct : string)
    (cache_ttl_minutes : jsnum) (p_timezone : string) (grid : WeekGrid)
| StandingsPayload (p_season : option Z) (generated_at_ct : string)
    (cache_ttl_minutes : jsnum) (core : Standings).

(** What the KV store keeps under a cache key. *)
Record CacheEntry := {
  expires_at_ms : jsnum;
  payload : Payload
}.

Inductive Body :=
| TextBody (text : string)
| ErrorBody (error : string)
| JsonBody (p : Payload).

Record Response := {
  status : Z;
  headers : list (string * string);
  body : Body
}.

(** ** Effects *)

(** The requests [fetchJson] sends. *)
Inductive Request :=
| GetConfig (url : string)
| GetScoreboard
| GetScoreboardDates (range : string).

Definition ESPN_SCOREBOARD : string :=
  "https://site.api.espn.com/apis/site/v2/sports/football/nfl/scoreboard".

Definition request_url (r : Request) : string :=
  match r with
  | GetConfig url => url
  | GetScoreboard => ESPN_SCOREBOARD
  | GetScoreboardDates range => ESPN_SCOREBOARD +:+ "?dates=" +:+ range
  end.

(** What the other side answers; [None] is a response that is not [ok]. *)
Record Upstream := {
  config_at : string → option Config;
  scoreboard : option Root;
  scoreboard_dates : string → option WeekData
}.

Inductive Error :=
| FetchFailed (url : string)
| TypeError (what : string).

Inductive Outcome (A : Type) :=
| Ok (a : A)
| Throw (e : Error).
Arguments Ok {A} a.
Arguments Throw {A} e.

Record World := {
  kv : gmap string CacheEntry;
  log : list Request
}.

Definition M (A : Type) : Type := World → Outcome A * World.

Definition ret {A} (a : A) : M A := λ w, (Ok a, w).

Definition throw {A} (e : Error) : M A := λ w, (Throw e, w).

Definition bind {A B} (m : M A) (k : A → M B) : M B :=
  λ w, match m w with
       | (Ok a, w') => k a w'
       | (Throw e, w') => (Throw e, w')
       end.

Notation "'let*' x ':=' m 'in' k" := (bind m (λ x, k))
  (at level 10, x name, m at level 100, k at level 200).

Definition lift {A} (o : Outcome A) : M A := λ w, (o, w).

(** [for (const x of l) { body }] with [await] inside. *)
Fixpoint for_each {A S} (body : S → A → M S) (s : S) (l : list A) : M S :=
  match l with
  | [] => ret s
  | x :: l' => let* s' := body s x in for_each body s' l'
  end.

(** The world after one more request. *)
Definition logged (r : Request) (w : World) : World :=
  {| kv := kv w; log := log w ++ [r] |}.

Definition send (r : Request) : M unit :=
  λ w, (Ok tt, logged r w).

Definition kv_get (key : string) : M (option CacheEntry) :=
  λ w, (Ok (kv w !! key), w).

Definition kv_put (key : string) (e : CacheEntry) : M unit :=
  λ w, (Ok tt, {| kv := <[key := e]> (kv w); log := log w |}).

(** ** The worker *)

Definition DEFAULT_TTL_MIN : Z := 30.

Definition NAME_TO_ABBR : list (string * string) :=
  [ ("49ers", "SF"); ("Bears", "CHI"); ("Bengals", "CIN"); ("Bills", "BUF");
    ("Broncos", "DEN"); ("Browns", "CLE"); ("Buccaneers", "TB");
    ("Cardinals", "ARI"); ("Chargers", "LAC"); ("Chiefs", "KC");
    ("Colts", "IND"); ("Commanders", "WSH"); ("Cowboys", "DAL");
    ("Dolphins", "MIA"); ("Eagles", "PHI"); ("Falcons", "ATL");
    ("Giants", "NYG"); ("Jaguars", "JAX"); ("Jets", "NYJ"); ("Lions", "DET");
    ("Packers", "GB"); ("Panthers", "CAR"); ("Patriots", "NE");
    ("Raiders", "LV"); ("Rams", "LAR"); ("Ravens", "BAL"); ("Saints", "NO");
    ("Seahawks", "SEA"); ("Steelers", "PIT"); ("Texans", "HOU");
    ("Titans", "TEN"); ("Vikings", "MIN") ].

(** [NAME_TO_ABBR[t]]. *)
Definition name_to_abbr (t : string) : option string :=
  snd <$> find (λ e, String.eqb (fst e) t) NAME_TO_ABBR.

(** The sentinel owner of [buildTeamToOwner] and the placeholder owner of
    [fetchWeekGrid]. *)
Definition Unowned : string := "Unowned".
Definition dash : string := "-".

(** [buildTeamToOwner] (lines 42-51).  Its first loop, for one entry of
    [config.owners]: *)
Definition assign_roster (map : gmap string string) (e : string * list string)
  : gmap string string :=
  foldl (λ m t, <[t := fst e]> m) map (snd e).

(** the body of its second loop: *)
Definition fill_unowned (map : gmap string string) (t : string)
  : gmap string string :=
  match map !! t with
  | Some _ => map
  | None => <[t := Unowned]> map
  end.

(** [config.owners || {}], as entries, and [config.unowned || []]. *)
Definition config_owners (config : Config) : list (string * list string) :=
  default [] (owners config).

Definition config_unowned (config : Config) : list string :=
  default [] (unowned config).

Definition buildTeamToOwner (config : Config) : gmap string string :=
  let map := foldl assign_roster ∅ (config_owners config) in
  foldl fill_unowned map (config_unowned config).

(** [getRegularSeasonWeekEntries] (lines 53-61).  The predicate of its
    filter: *)
Definition regular_entry (e : CalendarEntry) : bool :=
  match label e with
  | Some l => str_truthy l && matches_digits l
              && field_truthy (startDate e) && field_truthy (endDate e)
  | None => false
  end.

(** [calendar.filter(...).slice(0, 18)]. *)
Definition regular_entries (calendar : list CalendarEntry) : list CalendarEntry :=
  take 18 (List.filter regular_entry calendar).

(** [calendar?.[0]?.entries || calendar?.entries || []].  On an array without
    entries in its first section the second alternative is the array's own
    [entries] method, which has no [filter]. *)
Definition calendar_entries (root : Root) : Outcome (list CalendarEntry) :=
  match mbind calendar (first_of (leagues root)) with
  | None => Ok []
  | Some (CalendarObject sec) => Ok (default [] (entries sec))
  | Some (CalendarArray secs) =>
      match mbind entries (head secs) with
      | Some es => Ok es
      | None => Throw (TypeError "calendar.filter is not a function")
      end
  end.

(** [root?.week?.number || null]. *)
Definition current_week (root : Root) : option Z :=
  match week_number root with
  | Some n => if n =? 0 then None else Some n
  | None => None
  end.

(** [normalizeTeamName] (lines 63-66). *)
Definition normalizeTeamName (t : option Team) : string :=
  match t with
  | None => ""
  | Some t =>
      default "" (str_or (str_or (shortDisplayName t) (name t)) (abbreviation t))
  end.

(** [fetchWeekGrid] (lines 68-122).  [teamToOwner[name] || "-"]: *)
Definition owner_of (teamToOwner : gmap string string) (name : string) : string :=
  match teamToOwner !! name with
  | Some o => if str_truthy o then o else dash
  | None => dash
  end.

Definition find_side (side : string) (comps : list Competitor) : option Competitor :=
  find (λ c, bool_decide (homeAway c = Some side)) comps.

Definition find_winner (comps : list Competitor) : option Competitor :=
  find (λ c, bool_decide (is_winner c = Some true)) comps.

(** The matchup of an event (lines 83-88): its first competition with the
    away and the home competitor, when all three are there. *)
Definition matchup_of (ev : Event) : option (Competition * Competitor * Competitor) :=
  match first_of (competitions ev) with
  | None => None
  | Some comp =>
      let comps := default [] (competitors comp) in
      match find_side "away" comps, find_side "home" comps with
      | Some a, Some h => Some (comp, a, h)
      | _, _ => None
      end
  end.

(** The row of a matchup (lines 90-97 and 103-111). *)
Definition row_of (teamToOwner : gmap string string) (ev : Event)
    (m : Competition * Competitor * Competitor) : GameRow :=
  let '(comp, a, h) := m in
  let comps := default [] (competitors comp) in
  let awayName := normalizeTeamName (team a) in
  let homeName := normalizeTeamName (team h) in
  let winnerName := (λ c, normalizeTeamName (team c)) <$> find_winner comps in
  {| kickoff_utc := or_null (str_or (comp_date comp) (ev_date ev));
     away := awayName;
     home := homeName;
     winner := winnerName;
     awayOwner := owner_of teamToOwner awayName;
     homeOwner := owner_of teamToOwner homeName;
     winningOwner := if field_truthy winnerName
                     then owner_of teamToOwner (default "" winnerName)
                     else dash |}.

(** [awayOwner === "Unowned" && homeOwner === "Unowned"] (line 100). *)
Definition bothUnowned (r : GameRow) : bool :=
  String.eqb (awayOwner r) Unowned && String.eqb (homeOwner r) Unowned.

(** One turn of the loop over the events: [None] is [continue]. *)
Definition game_of (teamToOwner : gmap string string) (ev : Event) : option GameRow :=
  match matchup_of ev with
  | None => None
  | Some m =>
      let r := row_of teamToOwner ev m in
      if bothUnowned r then None else Some r
  end.

Definition week_games (teamToOwner : gmap string string) (weekData : WeekData)
  : list GameRow :=
  omap (game_of teamToOwner) (default [] (events weekData)).

(** [e.startDate.slice(0,10).replaceAll("-","")]. *)
Definition date_digits (d : option string) : Outcome string :=
  match d with
  | Some s => Ok (compact_date s)
  | None => Throw (TypeError "Cannot read properties of undefined")
  end.

(** [{ week, currentWeek, games: [] }]. *)
Definition empty_grid (week : jsnum) (currentWeek : option Z) : WeekGrid :=
  {| week := week; currentWeek := currentWeek; games := [];
     week_label := None; grid_startDate := None; grid_endDate := None |}.

(** [{ week, currentWeek, games, week_label: entry.label,
       startDate: entry.startDate, endDate: entry.endDate }]. *)
Definition window_grid (week : jsnum) (currentWeek : option Z)
    (games : list GameRow) (entry : CalendarEntry) : WeekGrid :=
  {| week := week; currentWeek := currentWeek; games := games;
     week_label := label entry;
     grid_startDate := startDate entry;
     grid_endDate := endDate entry |}.

(** The [YYYYMMDD-YYYYMMDD] range of a window. *)
Definition window_range (e : CalendarEntry) : Outcome string :=
  match date_digits (startDate e) with
  | Ok start =>
      match date_digits (endDate e) with
      | Ok end_ => Ok (start +:+ "-" +:+ end_)
      | Throw err => Throw err
      end
  | Throw err => Throw err
  end.

(** [computeTeamWinsForSeason] (lines 129-155).  The winner's count in
    [winsByAbbr], for one competition (lines 145-149): *)
Definition count_competition (winsByAbbr : gmap string Z) (comp : Competition)
  : gmap string Z :=
  match find_winner (default [] (competitors comp)) with
  | None => winsByAbbr
  | Some w =>
      match mbind abbreviation (team w) with
      | Some a =>
          if str_truthy a
          then <[a := default 0 (winsByAbbr !! a) + 1]> winsByAbbr
          else winsByAbbr
      | None => winsByAbbr
      end
  end.

Definition count_event (winsByAbbr : gmap string Z) (ev : Event) : gmap string Z :=
  foldl count_competition winsByAbbr (default [] (competitions ev)).

Definition count_week (winsByAbbr : gmap string Z) (weekData : WeekData)
  : gmap string Z :=
  foldl count_event winsByAbbr (default [] (events weekData)).

(** [Object.fromEntries(Object.values(NAME_TO_ABBR).map(a => [a, 0]))]. *)
Definition initial_wins : gmap string Z :=
  list_to_map ((λ e, (snd e, 0)) <$> NAME_TO_ABBR).

(** [buildResponse] (lines 157-175).  [NAME_TO_ABBR[t] || t]: *)
Definition abbr_of (t : string) : string :=
  match name_to_abbr t with
  | Some a => if str_truthy a then a else t
  | None => t
  end.

Definition team_row (winsByAbbr : gmap string Z) (t : string) : TeamRow :=
  let a := abbr_of t in
  {| tr_team := t; abbr := a; wins := default 0 (winsByAbbr !! a) |}.

Definition owner_row (winsByAbbr : gmap string Z) (e : string * list string)
  : OwnerRow :=
  let teamRows := team_row winsByAbbr <$> snd e in
  {| owner := fst e;
     total_wins := foldl (λ a b, a + wins b) 0 teamRows;
     teams := teamRows |}.

Record Env := {
  CACHE_TTL_MINUTES : option string;
  CONFIG_URL : option string;
  POOL_KV : bool
}.

(** The request, as far as the worker reads it: [url.pathname] and
    [url.searchParams.get("week")]. *)
Record HttpRequest := {
  pathname : string;
  week_param : option string
}.

(** The clock readings of one request: [Date.now()] at the cache check,
    [new Date()] for the payload and [Date.now()] at the cache store. *)
Record Clock := {
  at_check : Z;
  at_render : Z;
  at_store : Z
}.

Definition json_headers : list (string * string) :=
  [ ("content-type", "application/json; charset=utf-8");
    ("cache-control", "no-store") ].

Definition not_found : Response :=
  {| status := 404; headers := []; body := TextBody "Not found" |}.

Definition missing_config : Response :=
  {| status := 500;
     headers := [("content-type", "application/json")];
     body := ErrorBody "Missing CONFIG_URL env var" |}.

(** The response of a cache hit. *)
Definition cached_response (p : Payload) : Response :=
  {| status := 200; headers := json_headers; body := JsonBody p |}.

(** The response of a computed payload. *)
Definition computed_response (p : Payload) : Response :=
  {| status := 200;
     headers := json_headers ++ [("access-control-allow-origin", "*")];
     body := JsonBody p |}.

(** [Date.now() + ttlMin*60*1000]. *)
Definition expiry (now : Z) (ttlMin : jsnum) : jsnum :=
  js_add (Num now) (js_mul (js_mul ttlMin (Num 60)) (Num 1000)).

(** [cached && cached.expires_at_ms && Date.now() < cached.expires_at_ms]. *)
Definition cache_valid (now : Z) (cached : option CacheEntry) : bool :=
  match cached with
  | Some c => num_truthy (expires_at_ms c) && js_lt (Num now) (expires_at_ms c)
  | None => false
  end.

(** The cache check that both endpoints start with (lines 197-204 and
    237-244): the payload to serve, if there is a valid one. *)
Definition cache_check (env : Env) (cacheKey : string) (now : Z)
  : M (option Payload) :=
  if POOL_KV env then
    let* cached := kv_get cacheKey in
    if cache_valid now cached then ret (payload <$> cached) else ret None
  else ret None.

(** The cache store that both endpoints end with (lines 215-220 and
    257-262). *)
Definition cache_store (env : Env) (cacheKey : string) (now : Z)
    (ttlMin : jsnum) (p : Payload) : M unit :=
  if POOL_KV env then
    kv_put cacheKey {| expires_at_ms := expiry now ttlMin; payload := p |}
  else ret tt.

Section Worker.
Context `{Platform}.
Variable up : Upstream.

(** [fetchJson(url)] (lines 36-40), with the answer of the other side. *)
Definition fetchJson {A} (r : Request) (answer : option A) : M A :=
  let* _ := send r in
  match answer with
  | Some doc => ret doc
  | None => throw (FetchFailed (request_url r))
  end.

Definition getRegularSeasonWeekEntries : M (list CalendarEntry * option Z) :=
  let* root := fetchJson GetScoreboard (scoreboard up) in
  let* calendar := lift (calendar_entries root) in
  ret (regular_entries calendar, current_week root).

(** [Number(weekNumber || currentWeek || 1)]. *)
Definition requested_week (weekNumber : option string) (currentWeek : option Z)
  : jsnum :=
  match or_null weekNumber with
  | Some s => Number_ s
  | None => Num (default 1 currentWeek)
  end.

(** [Number(e.label) === week]. *)
Definition labelled (week : jsnum) (e : CalendarEntry) : bool :=
  strict_eq (from_option Number_ NaN (label e)) week.

(** The kickoff time that the comparator of the grid reads off a row. *)
Definition kickoff_time (r : GameRow) : jsnum :=
  match or_null (kickoff_utc r) with
  | Some s => Date_parse s
  | None => Num 0
  end.

(** The comparator of the grid (lines 115-119). *)
Definition compareGames (a b : GameRow) : jsnum :=
  num_or (num_or (js_sub (kickoff_time a) (kickoff_time b))
                 (Num (localeCompare (away a) (away b))))
         (Num (localeCompare (home a) (home b))).

(** The request for the results of a window. *)
Definition fetchWindow (e : CalendarEntry) : M WeekData :=
  let* range := lift (window_range e) in
  fetchJson (GetScoreboardDates range) (scoreboard_dates up range).

Definition fetchWeekGrid (weekNumber : option string) (config : Config)
  : M WeekGrid :=
  let* re := getRegularSeasonWeekEntries in
  let regularEntries := fst re in
  let currentWeek := snd re in
  let week := requested_week weekNumber currentWeek in
  match find (labelled week) regularEntries with
  | None => ret (empty_grid week currentWeek)
  | Some entry =>
      let* weekData := fetchWindow entry in
      let teamToOwner := buildTeamToOwner config in
      let games := week_games teamToOwner weekData in
      ret (window_grid week currentWeek (js_sort compareGames games) entry)
  end.

Definition computeTeamWinsForSeason (seasonYear : Z) : M (gmap string Z) :=
  let* re := getRegularSeasonWeekEntries in
  for_each
    (λ winsByAbbr e,
       let* weekData := fetchWindow e in
       ret (count_week winsByAbbr weekData))
    initial_wins (fst re).

(** The comparator of the standings (line 167). *)
Definition compareOwners (a b : OwnerRow) : jsnum :=
  num_or (Num (total_wins b - total_wins a))
         (Num (localeCompare (owner a) (owner b))).

Definition buildResponse (config : Config) (winsByAbbr : gmap string Z)
  : Outcome Standings :=
  match owners config with
  | None => Throw (TypeError "Cannot convert undefined or null to object")
  | Some os =>
      Ok {| standings := js_sort compareOwners (owner_row winsByAbbr <$> os);
            unowned_rows := team_row winsByAbbr <$> config_unowned config |}
  end.

(** [Number(env.CACHE_TTL_MINUTES || DEFAULT_TTL_MIN)]. *)
Definition ttl_minutes (env : Env) : jsnum :=
  match or_null (CACHE_TTL_MINUTES env) with
  | Some s => Number_ s
  | None => Num DEFAULT_TTL_MIN
  end.

Definition week_cache_key (weekParam : option string) : string :=
  "week_cache_v1_" +:+ default "auto" (or_null weekParam).

Definition standings_cache_key : string := "standings_cache_v1".

(** The week endpoint after a cache miss (lines 206-227). *)
Definition week_compute (env : Env) (clock : Clock) (weekParam : option string)
    (config : Config) : M Response :=
  let ttlMin := ttl_minutes env in
  let cacheKey := week_cache_key weekParam in
  let* grid := fetchWeekGrid weekParam config in
  let p := WeekPayload (season config) (ctString (at_render clock)) ttlMin
             (default "America/Chicago" (or_null (timezone config))) grid in
  let* _ := cache_store env cacheKey (at_store clock) ttlMin p in
  ret (computed_response p).

Definition week_endpoint (env : Env) (clock : Clock) (weekParam : option string)
    (config : Config) : M Response :=
  let cacheKey := week_cache_key weekParam in
  let* hit := cache_check env cacheKey (at_check clock) in
  match hit with
  | Some p => ret (cached_response p)
  | None => week_compute env clock weekParam config
  end.

(** [config.season || 2025]. *)
Definition season_year (config : Config) : Z :=
  match season config with
  | Some y => if y =? 0 then 2025 else y
  | None => 2025
  end.

(** The standings endpoint after a cache miss (lines 246-270). *)
Definition standings_compute (env : Env) (clock : Clock) (config : Config)
  : M Response :=
  let ttlMin := ttl_minutes env in
  let cacheKey := standings_cache_key in
  let* winsByAbbr := computeTeamWinsForSeason (season_year config) in
  let* payloadCore := lift (buildResponse config winsByAbbr) in
  let p := StandingsPayload (season config) (ctString (at_render clock))
             ttlMin payloadCore in
  let* _ := cache_store env cacheKey (at_store clock) ttlMin p in
  ret (computed_response p).

Definition standings_endpoint (env : Env) (clock : Clock) (config : Config)
  : M Response :=
  let cacheKey := standings_cache_key in
  let* hit := cache_check env cacheKey (at_check clock) in
  match hit with
  | Some p => ret (cached_response p)
  | None => standings_compute env clock config
  end.

(** The [fetch] handler (lines 178-271). *)
Definition fetch (request : HttpRequest) (env : Env) (clock : Clock) : M Response :=
  if negb (String.prefix "/api/" (pathname request)) then ret not_found
  else
    match or_null (CONFIG_URL env) with
    | None => ret missing_config
    | Some configUrl =>
        let* config := fetchJson (GetConfig configUrl) (config_at up configUrl) in
        if String.eqb (pathname request) "/api/week"
        then week_endpoint env clock (week_param request) config
        else if negb (String.eqb (pathname request) "/api/standings")
        then ret not_found
        else standings_endpoint env clock config
    end.

End Worker.

(** ** Notions of the specification *)



(** The sentinel is not the name of an owner. *)
Definition sentinel_reserved (config : Config) : Prop :=
  Unowned ∉ (fst <$> config_owners config).

(** A string of decimal digits, and the integer it denotes. *)
Definition digit_string (s : string) : Prop :=
  s ≠ "" ∧ Forall (λ c, (48 ≤ nat_of_ascii c ≤ 57)%nat) (list_ascii_of_string s).

Definition decimal_value (s : string) : Z :=
  foldl (λ v c, 10 * v + (Z.of_nat (nat_of_ascii c) - 48)) 0 (list_ascii_of_string s).


(** A row whose kickoff time is a number. *)
Definition timed `{Platform} (r : GameRow) : Prop := kickoff_time r ≠ NaN.

(** The order of the week grid: by kickoff time, then by away team, then by
    home team. *)
Definition game_order `{Platform} (a b : GameRow) : Prop :=
  ∃ ta tb, kickoff_time a = Num ta ∧ kickoff_time b = Num tb ∧
    (ta < tb ∨
     ta = tb ∧ (localeCompare (away a) (away b) < 0 ∨
                localeCompare (away a) (away b) = 0 ∧
                localeCompare (home a) (home b) <= 0)).


(** The two endpoints that go through the cache. *)
Inductive Endpoint :=
| WeekEndpoint (weekParam : option string)
| StandingsEndpoint.

Definition endpoint_key (ep : Endpoint) : string :=
  match ep with
  | WeekEndpoint weekParam => week_cache_key weekParam
  | StandingsEndpoint => standings_cache_key
  end.

Definition endpoint_run `{Platform} (up : Upstream) (env : Env) (clock : Clock)
    (ep : Endpoint) (config : Config) : M Response :=
  match ep with
  | WeekEndpoint weekParam => week_endpoint up env clock weekParam config
  | StandingsEndpoint => standings_endpoint up env clock config
  end.

Definition endpoint_compute `{Platform} (up : Upstream) (env : Env) (clock : Clock)
    (ep : Endpoint) (config : Config) : M Response :=
  match ep with
  | WeekEndpoint weekParam => week_compute up env clock weekParam config
  | StandingsEndpoint => standings_compute up env clock config
  end.

(** The entry that a request reads under a key: none without a KV store. *)
Definition cached_entry (env : Env) (key : string) (w : World) : option CacheEntry :=
  if POOL_KV env then kv w !! key else None.

(** The world with another KV store. *)
Definition with_kv (m : gmap string CacheEntry) (w : World) : World :=
  {| kv := m; log := log w |}.

(** A computation that does not read or write the KV store: it runs as on
    an empty store, and leaves the store as it is. *)
Definition store_blind {A} (m : M A) : Prop :=
  ∀ w, m w = (fst (m (with_kv ∅ w)), with_kv (kv w) (snd (m (with_kv ∅ w)))).

(** The code under which [computeTeamWinsForSeason] counts a competition:
    the abbreviation of its first competitor flagged as the winner. *)
Definition counted_code (comp : Competition) : option string :=
  match find_winner (default [] (competitors comp)) with
  | Some w =>
      match mbind abbreviation (team w) with
      | Some a => if str_truthy a then Some a else None
      | None => None
      end
  | None => None
  end.

(** The competitions of a week's results, in the order of the loops. *)
Definition week_competitions (weekData : WeekData) : list Competition :=
  mbind (λ ev, default [] (competitions ev)) (default [] (events weekData)).

(** How many of the competitions are counted under the code [a]. *)
Definition wins_counted (a : string) (comps : list Competition) : Z :=
  Z.of_nat (length (List.filter (λ c, bool_decide (counted_code c = Some a)) comps)).

(** The results that the upstream has for a window. *)
Definition window_results (up : Upstream) (e : CalendarEntry) : option WeekData :=
  match window_range e with
  | Ok range => scoreboard_dates up range
  | Throw _ => None
  end.

(** A string of decimal digits that denotes a positive integer. *)
Definition positive_integer_string (s : string) : Prop :=
  digit_string s ∧ 0 < decimal_value s.

(** The window of the requested week is found in the calendar and its
    results are fetched: [entry] is the window and [weekData] the results. *)
Definition window_fetched `{Platform} (up : Upstream) (weekNumber : option string)
    (root : Root) (entry : CalendarEntry) (range : string) (weekData : WeekData)
  : Prop :=
  ∃ cal,
    scoreboard up = Some root ∧
    calendar_entries root = Ok cal ∧
    find (labelled (requested_week weekNumber (current_week root)))
         (regular_entries cal) = Some entry ∧
    window_range entry = Ok range ∧
    scoreboard_dates up range = Some weekData.

(** ** A platform to run the worker on

    It agrees with the JavaScript platform on the strings of the examples
    below: [Number] on strings of decimal digits, [Date.parse] on the three
    ISO dates listed and on a string that is no date, [localeCompare] on
    capitalised ASCII words. *)

Definition sample_Number (s : string) : jsnum :=
  if matches_digits s then Num (decimal_value s) else NaN.

Definition sample_Date_parse (s : string) : jsnum :=
  if String.eqb s "2025-09-07T17:00Z" then Num 1757264400000
  else if String.eqb s "2025-09-07T20:25Z" then Num 1757276700000
  else if String.eqb s "2025-09-08T00:20Z" then Num 1757290800000
  else NaN.

Definition sample_localeCompare (a b : string) : Z :=
  match String.compare a b with
  | Lt => -1
  | Eq => 0
  | Gt => 1
  end.

Definition sample_platform : Platform :=
  {| Number_ := sample_Number;
     Date_parse := sample_Date_parse;
     localeCompare := sample_localeCompare;
     ctString := λ _, "Sep 07, 2025, 12:00 PM" |}.

(** ** Sample documents *)

Definition team_named (n a : string) : Team :=
  {| shortDisplayName := Some n; name := Some n; abbreviation := Some a |}.

Definition side (ha : string) (won : bool) (t : Team) : Competitor :=
  {| homeAway := Some ha; is_winner := Some won; team := Some t |}.

(** A finished game between [a] (away) and [h] (home). *)
Definition final_game (date : string) (a h : Team) (home_won : bool) : Event :=
  {| ev_date := Some date;
     competitions :=
       Some [ {| comp_date := Some date;
                 competitors := Some [ side "home" home_won h;
                                       side "away" (negb home_won) a ] |} ] |}.

Definition window (l s e : string) : CalendarEntry :=
  {| label := Some l; startDate := Some s; endDate := Some e |}.

Definition sample_calendar : list CalendarEntry :=
  [ window "1" "2025-09-04T07:00Z" "2025-09-10T06:59Z";
    window "2" "2025-09-10T07:00Z" "2025-09-17T06:59Z" ].

Definition root_with (cal : list CalendarEntry) : Root :=
  {| leagues := Some [ {| calendar := Some (CalendarArray [ {| entries := Some cal |} ]) |} ];
     week_number := Some 1 |}.

Definition sample_config : Config :=
  {| season := Some 2025;
     timezone := None;
     owners := Some [ ("Alice", ["Ravens"; "Bills"]); ("Bob", ["Vikings"]) ];
     unowned := Some ["Bears"; "Ravens"] |}.

Definition sample_config_url : string := "https://pool.example/pool-config.json".

(** An upstream whose calendar is [cal] and whose first week has the
    results [week1]. *)
Definition upstream_with (cal : list CalendarEntry) (week1 : WeekData) : Upstream :=
  {| config_at := λ url,
       if String.eqb url sample_config_url then Some sample_config else None;
     scoreboard := Some (root_with cal);
     scoreboard_dates := λ range,
       if String.eqb range "20250904-20250910" then Some week1
       else Some {| events := Some [] |} |}.

Definition empty_world : World := {| kv := ∅; log := [] |}.


(** A week with a game whose date is no date. *)
Definition week_undated : WeekData :=
  {| events := Some [ final_game "TBD"
                        (team_named "Vikings" "MIN") (team_named "Bears" "CHI") false;
                      final_game "2025-09-07T17:00Z"
                        (team_named "Bills" "BUF") (team_named "Dolphins" "MIA") false ] |}.

(** A game that has no date yet, and no winner. *)
Definition undated_game (a h : Team) : Event :=
  {| ev_date := None;
     competitions :=
       Some [ {| comp_date := None;
                 competitors := Some [ side "home" false h; side "away" false a ] |} ] |}.

(** A week of three finished games and one without a date. *)
Definition week_sample : WeekData :=
  {| events := Some [ final_game "2025-09-08T00:20Z"
                        (team_named "Ravens" "BAL") (team_named "Bills" "BUF") true;
                      final_game "2025-09-07T20:25Z"
                        (team_named "Vikings" "MIN") (team_named "Bears" "CHI") false;
                      final_game "2025-09-07T17:00Z"
                        (team_named "Dolphins" "MIA") (team_named "Ravens" "BAL") true;
                      undated_game
                        (team_named "Bills" "BUF") (team_named "Vikings" "MIN") ] |}.

(** A week whose winner comes without an abbreviation. *)
Definition week_uncoded : WeekData :=
  {| events := Some [ final_game "2025-09-07T17:00Z"
                        (team_named "Dolphins" "MIA")
                        {| shortDisplayName := Some "Ravens"; name := Some "Ravens";
                           abbreviation := None |}
                        true ] |}.

(** The grid of the first week of [week_sample]. *)
Definition sample_grid : WeekGrid :=
  window_grid (Num 1) (Some 1)
    [ {| kickoff_utc := None;
         away := "Bills"; home := "Vikings"; winner := None;
         awayOwner := "Alice"; homeOwner := "Bob"; winningOwner := "-" |};
      {| kickoff_utc := Some "2025-09-07T17:00Z";
         away := "Dolphins"; home := "Ravens"; winner := Some "Ravens";
         awayOwner := "-"; homeOwner := "Alice"; winningOwner := "Alice" |};
      {| kickoff_utc := Some "2025-09-07T20:25Z";
         away := "Vikings"; home := "Bears"; winner := Some "Vikings";
         awayOwner := "Bob"; homeOwner := "Unowned"; winningOwner := "Bob" |};
      {| kickoff_utc := Some "2025-09-08T00:20Z";
         away := "Ravens"; home := "Bills"; winner := Some "Bills";
         awayOwner := "Alice"; homeOwner := "Alice"; winningOwner := "Alice" |} ]
    (window "1" "2025-09-04T07:00Z" "2025-09-10T06:59Z").

(** The rows of [week_undated], before the sort. *)
Definition undated_rows : list GameRow :=
  Eval vm_compute in week_games (buildTeamToOwner sample_config) week_undated.

(** The row of the game of [week_unlisted]. *)
Definition unlisted_row : GameRow :=
  {| kickoff_utc := Some "2025-09-07T17:00Z";
     away := "Jets"; home := "Giants"; winner := Some "Giants";
     awayOwner := "-"; homeOwner := "-"; winningOwner := "-" |}.

(** The world after the two requests of a week grid. *)
Definition week1_world : World :=
  {| kv := ∅; log := [GetScoreboard; GetScoreboardDates "20250904-20250910"] |}.


Definition sample_env : Env :=
  {| CACHE_TTL_MINUTES := None;
     CONFIG_URL := Some sample_config_url;
     POOL_KV := true |}.

Definition standings_request : HttpRequest :=
  {| pathname := "/api/standings"; week_param := None |}.

(** A first request at 17:00:00 UTC and a second one ten minutes later. *)
Definition first_clock : Clock :=
  {| at_check := 1757264400000; at_render := 1757264400100; at_store := 1757264400900 |}.

Definition second_clock : Clock :=
  {| at_check := 1757265000000; at_render := 1757265000100; at_store := 1757265000900 |}.

(** The entry that the first request stores expires thirty minutes after
    its store: a request one millisecond before that time, and one at it. *)
Definition last_valid_clock : Clock :=
  {| at_check := 1757266200899; at_render := 1757266200899; at_store := 1757266200899 |}.

Definition expiry_clock : Clock :=
  {| at_check := 1757266200900; at_render := 1757266200900; at_store := 1757266200900 |}.

(** The response of the first request and the world it leaves. *)
Definition first_call : Outcome Response * World :=
  Eval vm_compute in
    @fetch sample_platform (upstream_with sample_calendar week_sample)
      standings_request sample_env first_clock empty_world.

Definition first_response : Response :=
  match fst first_call with
  | Ok r => r
  | Throw _ => not_found
  end.

(** ** Further notions *)

(** The request that the loop over the windows sends for a window. *)
Definition window_request (e : CalendarEntry) : option Request :=
  match window_range e with
  | Ok range => Some (GetScoreboardDates range)
  | Throw _ => None
  end.

(** The header that lets any origin read a response. *)
Definition cors_header : string * string := ("access-control-allow-origin", "*").

(** The sum of the wins of team rows. *)
Definition wins_sum (rows : list TeamRow) : Z :=
  foldr (λ r acc, wins r + acc) 0 rows.



(** A scoreboard without leagues, and the upstream that answers with it. *)
Definition bare_root : Root := {| leagues := None; week_number := None |}.

Definition bare_upstream : Upstream :=
  {| config_at := λ url,
       if String.eqb url sample_config_url then Some sample_config else None;
     scoreboard := Some bare_root;
     scoreboard_dates := λ _, None |}.

(** A calendar of three weeks, and an upstream that has it and no results
    for its second week. *)
Definition three_week_calendar : list CalendarEntry :=
  [ window "1" "2025-09-04T07:00Z" "2025-09-10T06:59Z";
    window "2" "2025-09-10T07:00Z" "2025-09-17T06:59Z";
    window "3" "2025-09-17T07:00Z" "2025-09-24T06:59Z" ].

Definition failing_upstream : Upstream :=
  {| config_at := λ url,
       if String.eqb url sample_config_url then Some sample_config else None;
     scoreboard := Some (root_with three_week_calendar);
     scoreboard_dates := λ range,
       if String.eqb range "20250904-20250910" then Some week_sample else None |}.




(** A request for the week "auto" and one without a week, and the first of
    them on the sample upstream. *)
Definition auto_request : HttpRequest :=
  {| pathname := "/api/week"; week_param := Some "auto" |}.

Definition week_request : HttpRequest :=
  {| pathname := "/api/week"; week_param := None |}.

Definition auto_call : Outcome Response * World :=
  Eval vm_compute in
    @fetch sample_platform (upstream_with sample_calendar week_sample)
      auto_request sample_env first_clock empty_world.

Definition auto_response : Response :=
  match fst auto_call with
  | Ok r => r
  | Throw _ => not_found
  end.

(** * Properties *)

(** ** The team-to-owner map *)

Section TeamToOwner.
Implicit Types (m : gmap string string) (t o : string).
Implicit Types (os : list (string * list string)) (ts us : list string).









End TeamToOwner.


(** ** Sorting with a comparator *)

Section Sort.
Context {A : Type} (cmp : A → A → jsnum).

Lemma sort_insert_perm x l : sort_insert cmp x l ≡ₚ x :: l.
Proof.
  induction l as [|y l IH]; simpl; [done|].
  destruct (cmp_le cmp x y); [done|].
  rewrite IH. apply Permutation_swap.
Qed.

Lemma js_sort_perm l : js_sort cmp l ≡ₚ l.
Proof.
  induction l as [|x l IH]; simpl; [done|].
  unfold js_sort in *. simpl. by rewrite sort_insert_perm, IH.
Qed.


Lemma length_js_sort l : length (js_sort cmp l) = length l.
Proof. by rewrite js_sort_perm. Qed.

(** On the elements that satisfy [P] the comparator decides an order [R]
    that is total and transitive. *)
Context (P : A → Prop) (R : relation A).
Hypothesis cmp_le_R : ∀ a b, P a → P b → cmp_le cmp a b = true ↔ R a b.
Hypothesis R_total : ∀ a b, P a → P b → R a b ∨ R b a.
Hypothesis R_trans : ∀ a b c, P a → P b → P c → R a b → R b c → R a c.

Lemma sort_insert_sorted x l :
  P x → Forall P l →
  StronglySorted R l → StronglySorted R (sort_insert cmp x l).
Proof.
  intros Hx. induction l as [|y l IH]; intros HP Hs; simpl.
  - repeat constructor.
  - apply Forall_cons in HP as [Hy HP].
    apply StronglySorted_inv in Hs as [Hs Hyl].
    destruct (cmp_le cmp x y) eqn:Hc.
    + apply cmp_le_R in Hc; [|done..].
      constructor; [by constructor|].
      constructor; [done|].
      rewrite Forall_forall in Hyl, HP |- *.
      intros z Hz. apply (R_trans x y z); auto.
    + constructor; [by apply IH|].
      rewrite sort_insert_perm. constructor; [|done].
      destruct (R_total x y) as [Hxy|Hyx]; [done..| |done].
      apply cmp_le_R in Hxy; [congruence|done..].
Qed.

Lemma js_sort_sorted l : Forall P l → StronglySorted R (js_sort cmp l).
Proof.
  induction l as [|x l IH]; intros HP.
  - constructor.
  - apply Forall_cons in HP as [Hx HP].
    unfold js_sort in *. simpl. apply sort_insert_sorted; auto.
    fold (js_sort cmp l). by rewrite js_sort_perm.
Qed.

(** The sort is stable: the elements tied with one another keep their
    order. *)
Lemma sort_insert_stable z x l :
  P z → P x → Forall P l →
  List.filter (tied cmp z) (sort_insert cmp x l) = List.filter (tied cmp z) (x :: l).
Proof.
  intros Hz Hx. induction l as [|y l IH]; intros HP; [done|].
  apply Forall_cons in HP as [Hy HP]. cbn [sort_insert].
  destruct (cmp_le cmp x y) eqn:Hxy; [done|].
  cbn [List.filter]. rewrite (IH HP). cbn [List.filter].
  destruct (tied cmp z x) eqn:Hzx, (tied cmp z y) eqn:Hzy; try done.
  apply andb_true_iff in Hzx as [_ Hxz], Hzy as [Hzy _].
  apply cmp_le_R in Hxz, Hzy; [|done..].
  assert (cmp_le cmp x y = true) by (apply cmp_le_R; eauto).
  congruence.
Qed.

Lemma js_sort_stable z l :
  P z → Forall P l →
  List.filter (tied cmp z) (js_sort cmp l) = List.filter (tied cmp z) l.
Proof.
  intros Hz. induction l as [|x l IH]; intros HP; [done|].
  apply Forall_cons in HP as [Hx HP].
  change (js_sort cmp (x :: l)) with (sort_insert cmp x (js_sort cmp l)).
  rewrite sort_insert_stable; [|done..|by rewrite js_sort_perm].
  cbn [List.filter]. by rewrite (IH HP).
Qed.

Lemma tied_R z x : P z → P x → tied cmp z x = true ↔ R z x ∧ R x z.
Proof.
  intros Hz Hx. unfold tied.
  by rewrite andb_true_iff, (cmp_le_R z x), (cmp_le_R x z).
Qed.

(** There is one stable sorted arrangement of a list: whatever algorithm the
    platform runs, its result is that of [js_sort]. *)
Lemma stable_sorted_unique l1 l2 :
  Forall P l1 → l1 ≡ₚ l2 →
  StronglySorted R l1 → StronglySorted R l2 →
  (∀ z, P z → List.filter (tied cmp z) l1 = List.filter (tied cmp z) l2) →
  l1 = l2.
Proof.
  revert l2. induction l1 as [|x l1 IH]; intros l2 HP Hperm Hs1 Hs2 Hstable.
  - by apply Permutation_nil in Hperm.
  - destruct l2 as [|y l2]; [by apply Permutation_nil_r in Hperm|].
    apply Forall_cons in HP as [Hx HP].
    assert (Hy : P y).
    { assert (Hin : y ∈ x :: l1) by (rewrite Hperm; by left).
      apply elem_of_cons in Hin as [->|Hin]; [done|].
      by apply (proj1 (Forall_forall _ _) HP). }
    apply StronglySorted_inv in Hs1 as [Hs1 Hx1], Hs2 as [Hs2 Hy2].
    assert (Hxx : R x x) by (by destruct (R_total x x)).
    assert (Hxy : R x y).
    { assert (Hin : y ∈ x :: l1) by (rewrite Hperm; by left).
      apply elem_of_cons in Hin as [->|Hin]; [done|].
      by apply (proj1 (Forall_forall _ _) Hx1). }
    assert (Hyx : R y x).
    { assert (Hin : x ∈ y :: l2) by (rewrite <- Hperm; by left).
      apply elem_of_cons in Hin as [->|Hin]; [done|].
      by apply (proj1 (Forall_forall _ _) Hy2). }
    pose proof (Hstable x Hx) as Hhead. cbn [List.filter] in Hhead.
    rewrite (proj2 (tied_R x x Hx Hx)), (proj2 (tied_R x y Hx Hy)) in Hhead by done.
    injection Hhead as <- _.
    f_equal. apply IH; [done | by eapply Permutation_cons_inv | done..|].
    intros z Hz. specialize (Hstable z Hz). cbn [List.filter] in Hstable.
    destruct (tied cmp z x); [by injection Hstable|done].
Qed.

Lemma js_sort_unique l l' :
  Forall P l → l' ≡ₚ l → StronglySorted R l' →
  (∀ z, P z → List.filter (tied cmp z) l' = List.filter (tied cmp z) l) →
  l' = js_sort cmp l.
Proof.
  intros HP Hperm Hs Hstable. apply stable_sorted_unique.
  - by rewrite Hperm.
  - by rewrite js_sort_perm.
  - done.
  - by apply js_sort_sorted.
  - intros z Hz. rewrite js_sort_stable by done. by apply Hstable.
Qed.

End Sort.


(** ** The two comparators *)

Lemma num_or_Num (x : Z) (y : jsnum) :
  num_or (Num x) y = if decide (x = 0) then y else Num x.
Proof.
  unfold num_or. simpl. destruct (decide (x = 0)) as [->|Hx]; [done|].
  by apply Z.eqb_neq in Hx as ->.
Qed.

Section Collation.
Context `{ConsistentCollation}.


Lemma localeCompare_flip_eq a b :
  localeCompare a b = 0 → localeCompare b a = 0.
Proof.
  pose proof (localeCompare_antisym a b).
  pose proof (Z.sgn_spec (localeCompare a b)).
  pose proof (Z.sgn_spec (localeCompare b a)). lia.
Qed.

Lemma localeCompare_flip_lt a b :
  localeCompare a b < 0 ↔ ¬ localeCompare b a <= 0.
Proof.
  pose proof (localeCompare_antisym a b).
  pose proof (Z.sgn_spec (localeCompare a b)).
  pose proof (Z.sgn_spec (localeCompare b a)). lia.
Qed.

Lemma localeCompare_lt_le a b c :
  localeCompare a b < 0 → localeCompare b c <= 0 → localeCompare a c < 0.
Proof.
  intros Hab Hbc. apply localeCompare_flip_lt. intros Hca.
  apply localeCompare_flip_lt in Hab. apply Hab.
  by apply (localeCompare_trans b c a).
Qed.

Lemma localeCompare_le_lt a b c :
  localeCompare a b <= 0 → localeCompare b c < 0 → localeCompare a c < 0.
Proof.
  intros Hab Hbc. apply localeCompare_flip_lt. intros Hca.
  apply localeCompare_flip_lt in Hbc. apply Hbc.
  by apply (localeCompare_trans c a b).
Qed.

Lemma localeCompare_eq_trans a b c :
  localeCompare a b = 0 → localeCompare b c = 0 → localeCompare a c = 0.
Proof.
  intros Hab Hbc.
  pose proof (localeCompare_flip_eq _ _ Hab).
  pose proof (localeCompare_flip_eq _ _ Hbc).
  assert (localeCompare a c <= 0) by (apply (localeCompare_trans a b c); lia).
  assert (localeCompare c a <= 0) by (apply (localeCompare_trans c b a); lia).
  pose proof (localeCompare_flip_lt a c). lia.
Qed.

(** *** The grid *)

Lemma compareGames_order a b :
  timed a → timed b → cmp_le compareGames a b = true ↔ game_order a b.
Proof.
  unfold timed, cmp_le, compareGames, game_order. intros Ha Hb.
  destruct (kickoff_time a) as [|ta]; [done|].
  destruct (kickoff_time b) as [|tb]; [done|]. cbn [js_sub].
  assert (Hinv : ∀ Q : Z → Z → Prop,
    (∃ ta' tb', Num ta = Num ta' ∧ Num tb = Num tb' ∧ Q ta' tb') ↔ Q ta tb).
  { intros Q. split; [|by exists ta, tb].
    by intros (ta' & tb' & [= <-] & [= <-] & HQ). }
  rewrite Hinv. clear Hinv. rewrite (num_or_Num (ta - tb)).
  destruct (decide (ta - tb = 0)) as [Ht|Ht]; rewrite !num_or_Num;
    repeat case_decide;
    (split; [intros Hh%Z.leb_le | intros Hord; apply Z.leb_le]); lia.
Qed.


Lemma game_order_trans a b c : game_order a b → game_order b c → game_order a c.
Proof.
  intros (ta & tb & Ha & Hb & Hab) (tb' & tc & Hb' & Hc & Hbc).
  rewrite Hb in Hb'. injection Hb' as <-.
  exists ta, tc. split_and!; [done..|].
  destruct Hab as [Hab|[-> Hab]]; [left; destruct Hbc as [?|[-> ?]]; lia|].
  destruct Hbc as [Hbc|[-> Hbc]]; [by left|]. right. split; [done|].
  destruct Hab as [Hab|[Hab Hab']].
  - left. destruct Hbc as [Hbc|[Hbc _]].
    + apply (localeCompare_lt_le _ (away b)); lia.
    + apply (localeCompare_lt_le _ (away b)); lia.
  - destruct Hbc as [Hbc|[Hbc Hbc']].
    + left. apply (localeCompare_le_lt _ (away b)); lia.
    + right. split.
      * by apply (localeCompare_eq_trans _ (away b)).
      * by apply (localeCompare_trans _ (home b)).
Qed.


(** *** The standings *)





End Collation.

(** ** Runs of the asynchronous functions *)

Section Runs.
Context `{Platform} (up : Upstream).

Lemma getRegularSeasonWeekEntries_run w :
  getRegularSeasonWeekEntries up w =
  match scoreboard up with
  | None => (Throw (FetchFailed ESPN_SCOREBOARD), logged GetScoreboard w)
  | Some root =>
      match calendar_entries root with
      | Ok cal =>
          (Ok (regular_entries cal, current_week root), logged GetScoreboard w)
      | Throw e => (Throw e, logged GetScoreboard w)
      end
  end.
Proof.
  unfold getRegularSeasonWeekEntries, fetchJson, bind, send, lift, ret, throw.
  destruct (scoreboard up) as [root|]; [|done].
  by destruct (calendar_entries root).
Qed.

Lemma fetchWindow_run e w :
  fetchWindow up e w =
  match window_range e with
  | Throw err => (Throw err, w)
  | Ok range =>
      match scoreboard_dates up range with
      | Some weekData => (Ok weekData, logged (GetScoreboardDates range) w)
      | None => (Throw (FetchFailed (request_url (GetScoreboardDates range))),
                 logged (GetScoreboardDates range) w)
      end
  end.
Proof.
  unfold fetchWindow, fetchJson, bind, send, lift, ret, throw.
  destruct (window_range e) as [range|]; [|done].
  by destruct (scoreboard_dates up range).
Qed.

(** A window that the calendar filter kept has a date range. *)
Lemma regular_entry_range e :
  regular_entry e = true → ∃ range, window_range e = Ok range.
Proof.
  unfold regular_entry, window_range, date_digits.
  destruct (label e); [|done].
  destruct (startDate e); [|by rewrite andb_false_r].
  destruct (endDate e); [|by rewrite andb_false_r].
  eauto.
Qed.

Lemma regular_entries_kept cal e :
  e ∈ regular_entries cal → e ∈ cal ∧ regular_entry e = true.
Proof.
  unfold regular_entries. intros Hin%subseteq_take.
  rewrite list_elem_of_In in Hin |- *.
  by apply filter_In in Hin.
Qed.

(** The grid when no window has the label of the week. *)
Lemma fetchWeekGrid_no_window weekNumber config w root cal :
  scoreboard up = Some root →
  calendar_entries root = Ok cal →
  find (labelled (requested_week weekNumber (current_week root)))
       (regular_entries cal) = None →
  fetchWeekGrid up weekNumber config w =
  (Ok (empty_grid (requested_week weekNumber (current_week root)) (current_week root)),
   logged GetScoreboard w).
Proof.
  intros Hroot Hcal Hfind. unfold fetchWeekGrid, bind.
  rewrite getRegularSeasonWeekEntries_run, Hroot, Hcal. simpl.
  by rewrite Hfind.
Qed.

(** The grid of a window. *)
Lemma fetchWeekGrid_window weekNumber config w root entry range weekData :
  window_fetched up weekNumber root entry range weekData →
  fetchWeekGrid up weekNumber config w =
  (Ok (window_grid (requested_week weekNumber (current_week root)) (current_week root)
         (js_sort compareGames (week_games (buildTeamToOwner config) weekData))
         entry),
   logged (GetScoreboardDates range) (logged GetScoreboard w)).
Proof.
  intros (cal & Hroot & Hcal & Hfind & Hrange & Hdata).
  unfold fetchWeekGrid, bind.
  rewrite getRegularSeasonWeekEntries_run, Hroot, Hcal. simpl.
  rewrite Hfind, fetchWindow_run, Hrange, Hdata. done.
Qed.

(** A grid that [fetchWeekGrid] returns is one of the two. *)
Lemma fetchWeekGrid_Ok weekNumber config w grid w' :
  fetchWeekGrid up weekNumber config w = (Ok grid, w') →
  ∃ root,
    let week := requested_week weekNumber (current_week root) in
    scoreboard up = Some root ∧
    ((∃ cal, calendar_entries root = Ok cal ∧
             find (labelled week) (regular_entries cal) = None) ∧
     grid = empty_grid week (current_week root)
     ∨
     ∃ entry range weekData,
       window_fetched up weekNumber root entry range weekData ∧
       grid = window_grid week (current_week root)
                (js_sort compareGames (week_games (buildTeamToOwner config) weekData))
                entry).
Proof.
  intros Hrun.
  destruct (scoreboard up) as [root|] eqn:Hroot; cycle 1.
  { unfold fetchWeekGrid, bind in Hrun.
    by rewrite getRegularSeasonWeekEntries_run, Hroot in Hrun. }
  destruct (calendar_entries root) as [cal|err] eqn:Hcal; cycle 1.
  { unfold fetchWeekGrid, bind in Hrun.
    by rewrite getRegularSeasonWeekEntries_run, Hroot, Hcal in Hrun. }
  exists root. simpl. split; [done|].
  destruct (find (labelled (requested_week weekNumber (current_week root)))
              (regular_entries cal)) as [entry|] eqn:Hfind.
  - right.
    assert (Hin : entry ∈ regular_entries cal).
    { apply list_elem_of_In. by apply find_some in Hfind as [? _]. }
    apply regular_entries_kept in Hin as [_ [range Hrange]%regular_entry_range].
    destruct (scoreboard_dates up range) as [weekData|] eqn:Hdata.
    + assert (Hw : window_fetched up weekNumber root entry range weekData)
        by (by exists cal).
      rewrite (fetchWeekGrid_window _ config w _ _ _ _ Hw) in Hrun.
      injection Hrun as <- <-. by exists entry, range, weekData.
    + unfold fetchWeekGrid, bind in Hrun.
      rewrite getRegularSeasonWeekEntries_run, Hroot, Hcal in Hrun. simpl in Hrun.
      rewrite Hfind, fetchWindow_run, Hrange, Hdata in Hrun. done.
  - left. rewrite (fetchWeekGrid_no_window _ config w _ _ Hroot Hcal Hfind) in Hrun.
    injection Hrun as <- <-. split; [by exists cal | done].
Qed.

End Runs.

(** ** The week grid *)

Lemma find_all_false {A} (f : A → bool) (l : list A) :
  (∀ x, x ∈ l → f x = false) → find f l = None.
Proof.
  induction l as [|x l IH]; intros Hall; simpl; [done|].
  rewrite (Hall x) by (by left). apply IH. intros y Hy. apply Hall. by right.
Qed.

Lemma str_truthy_ne s : s ≠ "" → str_truthy s = true.
Proof.
  intros Hs. unfold str_truthy. by apply negb_true_iff, String.eqb_neq.
Qed.






(** C9. When no window of the calendar has the number of the week as its
    label, [fetchWeekGrid] returns a grid with that week number (the number
    of the requested string, when a week was requested), no games and none
    of the window's label, start date and end date; it has sent the one
    request for the calendar. *)
Theorem fetchWeekGrid_unmatched_week `{Platform} (up : Upstream)
    (weekNumber : option string) (config : Config) (w : World)
    (root : Root) (cal : list CalendarEntry) :
  scoreboard up = Some root →
  calendar_entries root = Ok cal →
  (∀ e, e ∈ regular_entries cal →
        labelled (requested_week weekNumber (current_week root)) e = false) →
  ∃ grid,
    fetchWeekGrid up weekNumber config w = (Ok grid, logged GetScoreboard w) ∧
    week grid = requested_week weekNumber (current_week root) ∧
    (∀ s, weekNumber = Some s → s ≠ "" → week grid = Number_ s) ∧
    currentWeek grid = current_week root ∧
    games grid = [] ∧
    week_label grid = None ∧ grid_startDate grid = None ∧ grid_endDate grid = None.
Proof.
  intros Hroot Hcal Hnone. apply find_all_false in Hnone.
  eexists. split; [by apply fetchWeekGrid_no_window with (cal := cal)|].
  split_and!; try done.
  intros s -> Hs. simpl. unfold requested_week, or_null. simpl.
  by rewrite (str_truthy_ne s Hs).
Qed.




(** ** The standings *)


(** ** The calendar *)

Lemma is_digit_range c :
  is_digit c = true ↔ (48 ≤ nat_of_ascii c ≤ 57)%nat.
Proof.
  unfold is_digit. cbv zeta.
  rewrite andb_true_iff, !Nat.leb_le. done.
Qed.

Lemma matches_digits_spec s : matches_digits s = true ↔ digit_string s.
Proof.
  unfold matches_digits, digit_string. destruct s as [|c s]; simpl.
  - split; [done | by intros [? _]].
  - rewrite andb_true_iff, Forall_cons, forallb_forall, Forall_forall, is_digit_range.
    split.
    + intros [Hc Hall]. split; [done|]. split; [done|].
      intros x Hx. apply is_digit_range, Hall. by apply list_elem_of_In.
    + intros [_ [Hc Hall]]. split; [done|].
      intros x Hx. apply is_digit_range, Hall. by apply list_elem_of_In.
Qed.

Lemma field_truthy_Some o :
  field_truthy o = true → ∃ s, o = Some s ∧ s ≠ "".
Proof.
  destruct o as [s|]; [|done]. unfold field_truthy, str_truthy.
  intros Hs%negb_true_iff%String.eqb_neq. by exists s.
Qed.

(** C8, as the code has it.  The entries that [getRegularSeasonWeekEntries]
    returns are entries of the calendar whose label is a string of decimal
    digits, one at least, and which have a start date and an end date; there
    are 18 of them at most. *)
Theorem regular_weeks_filtered (up : Upstream) (w w' : World)
    (regularEntries : list CalendarEntry) (currentWeek : option Z) :
  getRegularSeasonWeekEntries up w = (Ok (regularEntries, currentWeek), w') →
  (length regularEntries ≤ 18)%nat ∧
  ∃ root cal,
    scoreboard up = Some root ∧ calendar_entries root = Ok cal ∧
    ∀ e, e ∈ regularEntries →
      e ∈ cal ∧
      ∃ l s d, label e = Some l ∧ digit_string l ∧
               startDate e = Some s ∧ s ≠ "" ∧
               endDate e = Some d ∧ d ≠ "".
Proof.
  rewrite getRegularSeasonWeekEntries_run.
  destruct (scoreboard up) as [root|] eqn:Hroot; [|done].
  destruct (calendar_entries root) as [cal|] eqn:Hcal; [|done].
  intros [= <- <- <-]. split.
  - unfold regular_entries. rewrite length_take. lia.
  - exists root, cal. split; [done|]. split; [done|].
    intros e [Hin Hreg]%regular_entries_kept. split; [done|].
    unfold regular_entry in Hreg.
    destruct (label e) as [l|]; [|done].
    apply andb_true_iff in Hreg as [Hreg Hend].
    apply andb_true_iff in Hreg as [Hreg Hstart].
    apply andb_true_iff in Hreg as [_ Hdigits].
    apply field_truthy_Some in Hstart as (s & -> & ?).
    apply field_truthy_Some in Hend as (d & -> & ?).
    exists l, s, d. split_and!; try done. by apply matches_digits_spec.
Qed.

(** C8, where the statement of the specification fails: an entry with the
    label ["0"] passes the filter, and ["0"] denotes no positive integer. *)
Lemma regular_weeks_label_zero :
  getRegularSeasonWeekEntries
    (upstream_with [window "0" "2025-08-01T07:00Z" "2025-08-07T06:59Z"] week_sample)
    empty_world
  = (Ok ([window "0" "2025-08-01T07:00Z" "2025-08-07T06:59Z"], Some 1),
     logged GetScoreboard empty_world)
  ∧ ¬ positive_integer_string "0".
Proof.
  split; [reflexivity|]. intros [_ Hpos]. vm_compute in Hpos. discriminate.
Qed.

(** ** The season's wins *)

Lemma initial_wins_lookup a :
  initial_wins !! a =
  if bool_decide (a ∈ snd <$> NAME_TO_ABBR) then Some 0 else None.
Proof.
  unfold initial_wins. induction NAME_TO_ABBR as [|[n c] l IH].
  - by rewrite bool_decide_eq_false_2 by apply not_elem_of_nil.
  - cbn [fmap list_fmap snd]. rewrite list_to_map_cons.
    destruct (decide (c = a)) as [->|Hne].
    + rewrite lookup_insert_eq, bool_decide_eq_true_2; [done | by left].
    + rewrite lookup_insert_ne by done. rewrite IH.
      apply (f_equal (λ b : bool, if b then Some 0 else None)).
      apply bool_decide_ext. rewrite elem_of_cons.
      split; [by right | intros [?|?]; congruence].
Qed.

(** Every code of the table starts at zero. *)
Lemma initial_wins_seeded n c :
  (n, c) ∈ NAME_TO_ABBR → initial_wins !! c = Some 0.
Proof.
  intros Hin. rewrite initial_wins_lookup, bool_decide_eq_true_2; [done|].
  apply list_elem_of_fmap. by exists (n, c).
Qed.

Lemma count_competition_lookup winsByAbbr comp a :
  count_competition winsByAbbr comp !! a =
  if bool_decide (counted_code comp = Some a)
  then Some (default 0 (winsByAbbr !! a) + 1)
  else winsByAbbr !! a.
Proof.
  unfold count_competition, counted_code.
  destruct (find_winner _) as [w|]; [|done].
  destruct (mbind abbreviation (team w)) as [c|]; [|done].
  destruct (str_truthy c); [|done].
  case_bool_decide as Hc.
  - injection Hc as ->. by rewrite lookup_insert_eq.
  - rewrite lookup_insert_ne; [done | congruence].
Qed.

(** The loop over competitions adds, under each code, the number of
    competitions counted under it; a code that is counted nowhere keeps its
    entry, or stays absent. *)
Lemma count_competitions_lookup comps winsByAbbr a :
  foldl count_competition winsByAbbr comps !! a =
  if decide (wins_counted a comps = 0) then winsByAbbr !! a
  else Some (default 0 (winsByAbbr !! a) + wins_counted a comps).
Proof.
  revert winsByAbbr. unfold wins_counted.
  induction comps as [|c comps IH]; intros winsByAbbr; [done|].
  cbn [foldl List.filter]. rewrite IH, count_competition_lookup. clear IH.
  destruct (bool_decide (counted_code c = Some a)); [|done].
  cbn [length]. unfold default, from_option, id.
  repeat case_decide; try lia; f_equal; lia.
Qed.

Lemma count_week_competitions winsByAbbr weekData :
  count_week winsByAbbr weekData =
  foldl count_competition winsByAbbr (week_competitions weekData).
Proof.
  unfold count_week, week_competitions.
  generalize (default [] (events weekData)). intros evs. revert winsByAbbr.
  induction evs as [|ev evs IH]; intros winsByAbbr; [done|].
  cbn [foldl mbind list_bind]. by rewrite foldl_app, IH.
Qed.

(** The loop over the windows, when the upstream has results for each. *)
Lemma season_loop_run `{Platform} (up : Upstream) (es : list CalendarEntry)
    (weeks : list WeekData) (winsByAbbr : gmap string Z) (w : World) :
  Forall2 (λ e weekData, window_results up e = Some weekData) es weeks →
  fst (for_each
         (λ winsByAbbr e,
            let* weekData := fetchWindow up e in
            ret (count_week winsByAbbr weekData))
         winsByAbbr es w)
  = Ok (foldl count_week winsByAbbr weeks).
Proof.
  intros Hweeks. revert winsByAbbr w.
  induction Hweeks as [|e weekData es weeks He _ IH]; intros winsByAbbr w; [done|].
  cbn [for_each foldl]. unfold bind at 1. unfold bind at 1.
  rewrite fetchWindow_run. unfold window_results in He.
  destruct (window_range e) as [range|]; [|done]. rewrite He.
  unfold ret at 1. apply IH.
Qed.

Lemma count_weeks_competitions weeks winsByAbbr :
  foldl count_week winsByAbbr weeks =
  foldl count_competition winsByAbbr (mbind week_competitions weeks).
Proof.
  revert winsByAbbr. induction weeks as [|weekData weeks IH]; intros winsByAbbr; [done|].
  cbn [foldl mbind list_bind]. by rewrite foldl_app, IH, count_week_competitions.
Qed.

(** The season's table, when every window has results: a code counted
    nowhere is at zero if the table of names has it and absent otherwise;
    any other code is at the number of competitions, over all windows, whose
    first flagged winner has it as its abbreviation. *)
Lemma season_wins_counted `{Platform} (up : Upstream) (seasonYear : Z) (w : World)
    (root : Root) (cal : list CalendarEntry) (weeks : list WeekData) :
  scoreboard up = Some root →
  calendar_entries root = Ok cal →
  Forall2 (λ e weekData, window_results up e = Some weekData)
          (regular_entries cal) weeks →
  ∃ winsByAbbr,
    fst (computeTeamWinsForSeason up seasonYear w) = Ok winsByAbbr ∧
    ∀ a, winsByAbbr !! a =
         if decide (wins_counted a (mbind week_competitions weeks) = 0)
         then (if bool_decide (a ∈ snd <$> NAME_TO_ABBR) then Some 0 else None)
         else Some (wins_counted a (mbind week_competitions weeks)).
Proof.
  intros Hroot Hcal Hweeks. exists (foldl count_week initial_wins weeks). split.
  - unfold computeTeamWinsForSeason, bind.
    rewrite getRegularSeasonWeekEntries_run, Hroot, Hcal. cbn [fst].
    by apply season_loop_run.
  - intros a. rewrite count_weeks_competitions, count_competitions_lookup.
    rewrite initial_wins_lookup. case_decide; [done|].
    f_equal. by destruct (bool_decide _).
Qed.

(** C5, at a winner without an abbreviation.  The first week has one game,
    which the Ravens won; their team comes with its names and without an
    abbreviation.  The table maps ["Ravens"] to ["BAL"], yet the season's
    table is the initial one, with no win for ["BAL"]. *)
Theorem uncoded_winner_not_counted :
  computeTeamWinsForSeason (upstream_with sample_calendar week_uncoded) 2025 empty_world
  = (Ok initial_wins,
     {| kv := ∅;
        log := [ GetScoreboard;
                 GetScoreboardDates "20250904-20250910";
                 GetScoreboardDates "20250910-20250917" ] |})
  ∧ initial_wins !! "BAL" = Some 0
  ∧ name_to_abbr "Ravens" = Some "BAL"
  ∧ winner <$> week_games (buildTeamToOwner sample_config) week_uncoded
    = [Some "Ravens"].
Proof. split_and!; by vm_compute. Qed.

(** ** Computations that leave the KV store alone *)

Section StoreBlind.
Context `{Platform} (up : Upstream).

Lemma with_kv_with_kv m1 m2 w : with_kv m1 (with_kv m2 w) = with_kv m1 w.
Proof. done. Qed.

Lemma with_kv_id w : with_kv (kv w) w = w.
Proof. by destruct w. Qed.

Lemma blind_ret {A} (a : A) : store_blind (ret a).
Proof. intros w. unfold ret. simpl. by rewrite with_kv_with_kv, with_kv_id. Qed.

Lemma blind_throw {A} e : store_blind (@throw A e).
Proof. intros w. unfold throw. simpl. by rewrite with_kv_with_kv, with_kv_id. Qed.

Lemma blind_lift {A} (o : Outcome A) : store_blind (lift o).
Proof. intros w. unfold lift. simpl. by rewrite with_kv_with_kv, with_kv_id. Qed.

Lemma blind_send r : store_blind (send r).
Proof. by intros w. Qed.

Lemma blind_bind {A B} (m : M A) (k : A → M B) :
  store_blind m → (∀ a, store_blind (k a)) → store_blind (bind m k).
Proof.
  intros Hm Hk w. unfold bind. rewrite (Hm w).
  destruct (m (with_kv ∅ w)) as [[a|e] w1]; simpl; [|done].
  rewrite (Hk a (with_kv (kv w) w1)), (Hk a w1). simpl.
  by rewrite !with_kv_with_kv.
Qed.

Lemma blind_for_each {A S} (body : S → A → M S) s l :
  (∀ s x, store_blind (body s x)) → store_blind (for_each body s l).
Proof.
  intros Hbody. revert s. induction l as [|x l IH]; intros s; simpl.
  - apply blind_ret.
  - apply blind_bind; [apply Hbody | intros s'; apply IH].
Qed.

Lemma blind_fetchJson {A} r (answer : option A) : store_blind (fetchJson r answer).
Proof.
  unfold fetchJson. apply blind_bind; [apply blind_send|].
  intros _. destruct answer; [apply blind_ret | apply blind_throw].
Qed.

Lemma blind_getRegularSeasonWeekEntries : store_blind (getRegularSeasonWeekEntries up).
Proof.
  unfold getRegularSeasonWeekEntries.
  apply blind_bind; [apply blind_fetchJson | intros root].
  apply blind_bind; [apply blind_lift | intros cal]. apply blind_ret.
Qed.

Lemma blind_fetchWindow e : store_blind (fetchWindow up e).
Proof.
  unfold fetchWindow.
  apply blind_bind; [apply blind_lift | intros range]. apply blind_fetchJson.
Qed.

Lemma blind_fetchWeekGrid weekNumber config :
  store_blind (fetchWeekGrid up weekNumber config).
Proof.
  unfold fetchWeekGrid.
  apply blind_bind; [apply blind_getRegularSeasonWeekEntries | intros re].
  simpl. destruct (find _ _); [|apply blind_ret].
  apply blind_bind; [apply blind_fetchWindow | intros weekData]. apply blind_ret.
Qed.

Lemma blind_computeTeamWinsForSeason seasonYear :
  store_blind (computeTeamWinsForSeason up seasonYear).
Proof.
  unfold computeTeamWinsForSeason.
  apply blind_bind; [apply blind_getRegularSeasonWeekEntries | intros re].
  apply blind_for_each. intros winsByAbbr e.
  apply blind_bind; [apply blind_fetchWindow | intros weekData]. apply blind_ret.
Qed.

(** What blindness gives: the store is kept, and the result and the
    requests depend on the log alone. *)
Lemma blind_kv {A} (m : M A) w o w' :
  store_blind m → m w = (o, w') → kv w' = kv w.
Proof. intros Hm. rewrite (Hm w). by intros [= _ <-]. Qed.

Lemma blind_same {A} (m : M A) w1 w2 :
  store_blind m → log w1 = log w2 →
  fst (m w1) = fst (m w2) ∧ log (snd (m w1)) = log (snd (m w2)).
Proof.
  intros Hm Hlog. rewrite (Hm w1), (Hm w2). unfold with_kv. simpl.
  by rewrite Hlog.
Qed.

End StoreBlind.

(** ** The cache *)

Lemma cache_check_run env key now w :
  cache_check env key now w =
  (Ok (if cache_valid now (cached_entry env key w)
       then payload <$> cached_entry env key w else None), w).
Proof.
  unfold cache_check, cached_entry, bind, kv_get, ret.
  destruct (POOL_KV env); [|done].
  by destruct (cache_valid now (kv w !! key)).
Qed.

Lemma cache_store_run env key now ttlMin p w :
  cache_store env key now ttlMin p w =
  (Ok tt,
   if POOL_KV env
   then with_kv (<[key := {| expires_at_ms := expiry now ttlMin; payload := p |}]> (kv w)) w
   else w).
Proof. unfold cache_store, kv_put, ret. by destruct (POOL_KV env). Qed.

Lemma cache_valid_Some now cached :
  cache_valid now cached = true ↔
  ∃ c, cached = Some c ∧ num_truthy (expires_at_ms c) = true ∧
       js_lt (Num now) (expires_at_ms c) = true.
Proof.
  unfold cache_valid. destruct cached as [c|].
  - rewrite andb_true_iff. split; [by exists c | by intros (? & [= <-] & ?)].
  - split; [done | by intros (? & ? & _)].
Qed.

(** A valid entry is in the future of the check. *)
Lemma js_lt_Num now e :
  js_lt (Num now) e = true ↔ ∃ t, e = Num t ∧ now < t.
Proof.
  destruct e as [|t]; simpl.
  - split; [done | by intros (? & ? & _)].
  - rewrite Z.ltb_lt. split; [by exists t | by intros (? & [= <-] & ?)].
Qed.

Section Cache.
Context `{Platform} (up : Upstream).

(** The shape of both computations after a miss: a store-blind core, the
    store of its payload, the response. *)
Lemma compute_shape {X} (core : M X) (mk : X → Payload) env key now ttlMin
    (m : M Response) w :
  store_blind core →
  (∀ w, m w =
        bind core (λ x, bind (cache_store env key now ttlMin (mk x))
                          (λ _, ret (computed_response (mk x)))) w) →
  (∀ r w', m w = (Ok r, w') →
     ∃ p, r = computed_response p ∧
          kv w' = if POOL_KV env
                  then <[key := {| expires_at_ms := expiry now ttlMin;
                                   payload := p |}]> (kv w)
                  else kv w) ∧
  (∀ e w', m w = (Throw e, w') → kv w' = kv w) ∧
  (∀ w2, log w2 = log w →
     fst (m w2) = fst (m w) ∧ log (snd (m w2)) = log (snd (m w))).
Proof.
  intros Hcore Hm. split_and!.
  - intros r w'. rewrite Hm. unfold bind.
    destruct (core w) as [[x|e] w1] eqn:Hrun; [|done].
    apply (blind_kv core) in Hrun; [|done].
    rewrite cache_store_run. unfold ret. intros [= <- <-]. exists (mk x).
    split; [done|]. destruct (POOL_KV env); cbn [kv with_kv]; congruence.
  - intros e w'. rewrite Hm. unfold bind.
    destruct (core w) as [[x|e'] w1] eqn:Hrun.
    + by rewrite cache_store_run.
    + intros [= _ <-]. by apply (blind_kv core) in Hrun.
  - intros w2 Hlog. rewrite !Hm. unfold bind.
    destruct (blind_same core w2 w Hcore Hlog) as [Hfst Hsnd].
    destruct (core w2) as [[x2|e2] w2'], (core w) as [[x|e] w1];
      simpl in *; try done.
    + injection Hfst as ->. rewrite !cache_store_run. unfold ret.
      cbn [fst snd]. split; [done|]. by destruct (POOL_KV env).
    + by injection Hfst as ->.
Qed.

Lemma week_compute_shape env clock weekParam config w :
  week_compute up env clock weekParam config w =
  bind (fetchWeekGrid up weekParam config)
    (λ grid,
       bind (cache_store env (week_cache_key weekParam) (at_store clock)
               (ttl_minutes env)
               (WeekPayload (season config) (ctString (at_render clock))
                  (ttl_minutes env)
                  (default "America/Chicago" (or_null (timezone config))) grid))
         (λ _, ret (computed_response
                (WeekPayload (season config) (ctString (at_render clock))
                   (ttl_minutes env)
                   (default "America/Chicago" (or_null (timezone config))) grid)))) w.
Proof. done. Qed.

Lemma standings_compute_shape env clock config w :
  standings_compute up env clock config w =
  bind (bind (computeTeamWinsForSeason up (season_year config))
             (λ winsByAbbr, lift (buildResponse config winsByAbbr)))
    (λ core,
       bind (cache_store env standings_cache_key (at_store clock)
               (ttl_minutes env)
               (StandingsPayload (season config) (ctString (at_render clock))
                  (ttl_minutes env) core))
         (λ _, ret (computed_response
                (StandingsPayload (season config) (ctString (at_render clock))
                   (ttl_minutes env) core)))) w.
Proof.
  unfold standings_compute, bind.
  by destruct (computeTeamWinsForSeason up (season_year config) w) as [[x|e] w1].
Qed.

(** What a computation after a miss does to the store, for both
    endpoints. *)
Lemma endpoint_compute_shape env clock ep config w :
  (∀ r w', endpoint_compute up env clock ep config w = (Ok r, w') →
     ∃ p, r = computed_response p ∧
          kv w' = if POOL_KV env
                  then <[endpoint_key ep :=
                           {| expires_at_ms := expiry (at_store clock) (ttl_minutes env);
                              payload := p |}]> (kv w)
                  else kv w) ∧
  (∀ e w', endpoint_compute up env clock ep config w = (Throw e, w') →
     kv w' = kv w) ∧
  (∀ w2, log w2 = log w →
     fst (endpoint_compute up env clock ep config w2) =
       fst (endpoint_compute up env clock ep config w) ∧
     log (snd (endpoint_compute up env clock ep config w2)) =
       log (snd (endpoint_compute up env clock ep config w))).
Proof.
  destruct ep as [weekParam|]; cbn [endpoint_key endpoint_compute].
  - eapply compute_shape; [|intros w0; apply week_compute_shape].
    apply blind_fetchWeekGrid.
  - eapply compute_shape; [|intros w0; apply standings_compute_shape].
    apply blind_bind; [apply blind_computeTeamWinsForSeason|].
    intros wins. apply blind_lift.
Qed.

(** The run of an endpoint: the cached payload when the entry is valid,
    the computation otherwise. *)
Lemma endpoint_run_check env clock ep config w :
  endpoint_run up env clock ep config w =
  match cached_entry env (endpoint_key ep) w with
  | Some c =>
      if cache_valid (at_check clock) (Some c)
      then (Ok (cached_response (payload c)), w)
      else endpoint_compute up env clock ep config w
  | None => endpoint_compute up env clock ep config w
  end.
Proof.
  destruct ep as [weekParam|];
    cbn [endpoint_run endpoint_key endpoint_compute];
    unfold week_endpoint, standings_endpoint, bind;
    rewrite cache_check_run;
    (destruct (cached_entry env _ w) as [c|]; [|done]);
    by destruct (cache_valid (at_check clock) (Some c)).
Qed.

End Cache.

(** C6. For the week endpoint and for the standings endpoint: the response
    is the cached one only when the store holds an entry under the key and
    the time of the check is before its [expires_at_ms], and such an entry is
    served as it is; with no entry, or with one that has expired, the
    endpoint runs the computation of a miss, which does not depend on what
    the store holds, and which stores the computed payload under the key;
    no run removes a key of the store or changes another key. *)
Theorem cache_entry_served_only_when_valid `{Platform} (up : Upstream) (env : Env)
    (clock : Clock) (ep : Endpoint) (config : Config) (w : World) :
  let key := endpoint_key ep in
  let cached := cached_entry env key w in
  let run := endpoint_run up env clock ep config in
  let compute := endpoint_compute up env clock ep config in
  (∀ p w', run w = (Ok (cached_response p), w') →
     ∃ c t, cached = Some c ∧ payload c = p ∧
            expires_at_ms c = Num t ∧ at_check clock < t ∧ w' = w) ∧
  (∀ c t, cached = Some c → expires_at_ms c = Num t → t ≠ 0 → at_check clock < t →
     run w = (Ok (cached_response (payload c)), w)) ∧
  (cached = None ∨
   (∃ c, cached = Some c ∧ ∀ t, expires_at_ms c = Num t → t <= at_check clock) →
   run w = compute w) ∧
  (∀ w2, log w2 = log w →
     fst (compute w2) = fst (compute w) ∧
     log (snd (compute w2)) = log (snd (compute w))) ∧
  (∀ r w', compute w = (Ok r, w') →
     ∃ p, r = computed_response p ∧
          (POOL_KV env = true →
           kv w' = <[key := {| expires_at_ms := expiry (at_store clock) (ttl_minutes env);
                               payload := p |}]> (kv w))) ∧
  (∀ o w', run w = (o, w') →
     ∀ k, (k ≠ key → kv w' !! k = kv w !! k) ∧
          (is_Some (kv w !! k) → is_Some (kv w' !! k))).
Proof.
  intros key cached run compute. subst run compute.
  pose proof (endpoint_compute_shape up env clock ep config w)
    as (Hok & Hthrow & Hsame).
  pose proof (endpoint_run_check up env clock ep config w) as Hrun.
  fold key in Hok, Hrun. fold cached in Hrun.
  split_and!.
  - intros p w'. rewrite Hrun.
    destruct cached as [c|] eqn:Hc.
    + destruct (cache_valid (at_check clock) (Some c)) eqn:Hvalid.
      * intros [= <- <-].
        apply cache_valid_Some in Hvalid as (c' & [= <-] & _ & (t & Ht & Hlt)%js_lt_Num).
        by exists c, t.
      * intros (p' & [=] & _)%Hok.
    + intros (p' & [=] & _)%Hok.
  - intros c t Hc Ht Hnz Hlt. rewrite Hrun, Hc.
    assert (cache_valid (at_check clock) (Some c) = true) as ->; [|done].
    apply cache_valid_Some. exists c. split_and!; [done|..].
    + rewrite Ht. simpl. by apply negb_true_iff, Z.eqb_neq.
    + apply js_lt_Num. by exists t.
  - rewrite Hrun. intros [->|(c & -> & Hexp)]; [done|].
    assert (cache_valid (at_check clock) (Some c) = false) as ->; [|done].
    destruct (cache_valid _ _) eqn:Hvalid; [|done].
    apply cache_valid_Some in Hvalid as (c' & [= <-] & _ & (t & Ht & Hlt)%js_lt_Num).
    specialize (Hexp t Ht). lia.
  - done.
  - intros r w' (p & -> & Hkv)%Hok. exists p. split; [done|].
    intros Hon. by rewrite Hon in Hkv.
  - intros o w'. rewrite Hrun.
    assert (Hcompute : endpoint_compute up env clock ep config w = (o, w') →
      ∀ k, (k ≠ key → kv w' !! k = kv w !! k) ∧
           (is_Some (kv w !! k) → is_Some (kv w' !! k))).
    { destruct o as [r|e].
      - intros (p & _ & ->)%Hok k. destruct (POOL_KV env); [|done]. split.
        + intros Hk. by rewrite lookup_insert_ne.
        + intros Hsome. destruct (decide (key = k)) as [->|Hk].
          * by rewrite lookup_insert_eq.
          * by rewrite lookup_insert_ne.
      - intros ->%Hthrow k. done. }
    destruct cached as [c|]; [|done].
    destruct (cache_valid (at_check clock) (Some c)); [|done].
    by intros [= _ <-] k.
Qed.

(** ** The handler on the two cached paths *)

Section Handler.
Context `{Platform} (up : Upstream).

Lemma fetch_standings_run request env clock w configUrl config :
  pathname request = "/api/standings" →
  or_null (CONFIG_URL env) = Some configUrl →
  config_at up configUrl = Some config →
  fetch up request env clock w =
  standings_endpoint up env clock config (logged (GetConfig configUrl) w).
Proof.
  intros Hpath Hurl Hconfig. unfold fetch. rewrite Hpath, Hurl.
  cbn [String.prefix negb]. unfold fetchJson, bind, send, ret.
  by rewrite Hconfig.
Qed.

Lemma fetch_week_run request env clock w configUrl config :
  pathname request = "/api/week" →
  or_null (CONFIG_URL env) = Some configUrl →
  config_at up configUrl = Some config →
  fetch up request env clock w =
  week_endpoint up env clock (week_param request) config
    (logged (GetConfig configUrl) w).
Proof.
  intros Hpath Hurl Hconfig. unfold fetch. rewrite Hpath, Hurl.
  cbn [String.prefix negb]. unfold fetchJson, bind, send, ret.
  by rewrite Hconfig.
Qed.

Lemma fetch_standings_inv request env clock w r w' :
  pathname request = "/api/standings" →
  fetch up request env clock w = (Ok r, w') → status r = 200 →
  ∃ configUrl config,
    or_null (CONFIG_URL env) = Some configUrl ∧
    config_at up configUrl = Some config ∧
    standings_endpoint up env clock config (logged (GetConfig configUrl) w)
    = (Ok r, w').
Proof.
  intros Hpath Hrun Hstatus.
  destruct (or_null (CONFIG_URL env)) as [configUrl|] eqn:Hurl; cycle 1.
  { unfold fetch in Hrun. rewrite Hpath, Hurl in Hrun.
    injection Hrun as <- <-. done. }
  destruct (config_at up configUrl) as [config|] eqn:Hconfig; cycle 1.
  { unfold fetch in Hrun. rewrite Hpath, Hurl in Hrun.
    cbn [String.prefix negb] in Hrun.
    unfold fetchJson, bind, send, throw in Hrun. by rewrite Hconfig in Hrun. }
  exists configUrl, config. split_and!; [done..|].
  by rewrite <- (fetch_standings_run request env clock w configUrl config).
Qed.

End Handler.

(** C7. With a KV store, after a call of the standings endpoint that
    answered with a payload, a second call made while the entry under the
    standings key has not expired answers with the same payload; it takes
    the payload from the store, which it leaves as it is, and sends one
    request, for the configuration, and none to the scoreboard.  After a
    first call that computed, the entry expires [ttlMin] minutes after that
    call's store. *)
Theorem standings_twice_within_ttl `{Platform} (up : Upstream) (env : Env)
    (request : HttpRequest) (clock1 clock2 : Clock) (w0 w1 : World) (r1 : Response) :
  POOL_KV env = true →
  pathname request = "/api/standings" →
  fetch up request env clock1 w0 = (Ok r1, w1) →
  status r1 = 200 →
  0 <= at_check clock2 →
  (∀ c, kv w1 !! standings_cache_key = Some c →
        js_lt (Num (at_check clock2)) (expires_at_ms c) = true) →
  ∃ r2 configUrl c,
    fetch up request env clock2 w1 = (Ok r2, logged (GetConfig configUrl) w1) ∧
    body r2 = body r1 ∧
    kv w1 !! standings_cache_key = Some c ∧
    body r1 = JsonBody (payload c) ∧
    (cache_valid (at_check clock1) (kv w0 !! standings_cache_key) = false →
     expires_at_ms c = expiry (at_store clock1) (ttl_minutes env)).
Proof.
  intros Hkv Hpath Hrun Hstatus Hnow Hfresh.
  apply fetch_standings_inv in Hrun as (configUrl & config & Hurl & Hconfig & Hrun);
    [|done..].
  pose proof (endpoint_run_check up env clock1 StandingsEndpoint config
                (logged (GetConfig configUrl) w0)) as Hcheck.
  cbn [endpoint_run endpoint_key endpoint_compute] in Hcheck.
  unfold cached_entry in Hcheck. rewrite Hkv, Hrun in Hcheck. cbn [kv logged] in Hcheck.
  assert (Hentry : ∃ c, kv w1 !! standings_cache_key = Some c ∧
                        body r1 = JsonBody (payload c) ∧
                        (cache_valid (at_check clock1) (kv w0 !! standings_cache_key) = false →
                         expires_at_ms c = expiry (at_store clock1) (ttl_minutes env))).
  { pose proof (endpoint_compute_shape up env clock1 StandingsEndpoint config
                  (logged (GetConfig configUrl) w0)) as (Hok & _ & _).
    cbn [endpoint_key endpoint_compute] in Hok. rewrite Hkv in Hok.
    destruct (kv w0 !! standings_cache_key) as [c0|] eqn:Hc0.
    - destruct (cache_valid (at_check clock1) (Some c0)) eqn:Hvalid.
      + injection Hcheck as -> ->. exists c0. by split_and!.
      + symmetry in Hcheck. apply Hok in Hcheck as (p & -> & ->).
        eexists. rewrite lookup_insert_eq. by split_and!.
    - symmetry in Hcheck. apply Hok in Hcheck as (p & -> & ->).
      eexists. rewrite lookup_insert_eq. by split_and!. }
  destruct Hentry as (c & Hc & Hbody & Hexp).
  exists (cached_response (payload c)), configUrl, c.
  split_and!; [|by rewrite Hbody|done..].
  rewrite (fetch_standings_run up request env clock2 w1 configUrl config)
    by done.
  pose proof (endpoint_run_check up env clock2 StandingsEndpoint config
                (logged (GetConfig configUrl) w1)) as Hcheck2.
  cbn [endpoint_run endpoint_key endpoint_compute] in Hcheck2.
  unfold cached_entry in Hcheck2. rewrite Hkv in Hcheck2.
  cbn [kv logged] in Hcheck2. rewrite Hc in Hcheck2.
  assert (cache_valid (at_check clock2) (Some c) = true) as Hvalid.
  { apply cache_valid_Some. exists c.
    pose proof (Hfresh c Hc) as Hlt. split_and!; [done| |done].
    apply js_lt_Num in Hlt as (t & -> & Hlt). simpl.
    apply negb_true_iff, Z.eqb_neq. lia. }
  by rewrite Hvalid in Hcheck2.
Qed.

(** * Runs on the sample documents *)

(** A decidable proposition that evaluates to true. *)
Ltac by_evaluation :=
  lazymatch goal with
  | |- ?P => apply (bool_decide_unpack P); vm_compute; exact I
  end.

Lemma sample_collation : @ConsistentCollation sample_platform.
Proof.
  split; simpl; unfold sample_localeCompare.
  - intros a b. rewrite (String.compare_antisym a b).
    by destruct (String.compare b a).
  - intros a b c Hab Hbc.
    destruct (String.compare a b) eqn:Hc1; [| |lia].
    + apply OrderedTypeEx.String_as_OT.cmp_eq in Hc1 as ->. done.
    + destruct (String.compare b c) eqn:Hc2; [| |lia].
      * apply OrderedTypeEx.String_as_OT.cmp_eq in Hc2 as <-. by rewrite Hc1.
      * apply OrderedTypeEx.String_as_OT.cmp_lt in Hc1, Hc2.
        pose proof (OrderedTypeEx.String_as_OT.lt_trans _ _ _ Hc1 Hc2) as Hac.
        apply OrderedTypeEx.String_as_OT.cmp_lt in Hac.
        unfold OrderedTypeEx.String_as_OT.cmp in Hac. by rewrite Hac.
Qed.

Lemma sample_sentinel_reserved : sentinel_reserved sample_config.
Proof. unfold sentinel_reserved. by_evaluation. Qed.


Lemma sample_window_fetched week1 :
  @window_fetched sample_platform (upstream_with sample_calendar week1) (Some "1")
    (root_with sample_calendar) (window "1" "2025-09-04T07:00Z" "2025-09-10T06:59Z")
    "20250904-20250910" week1.
Proof. exists sample_calendar. by split_and!. Qed.





(** On the two rows of that week the comparator is consistent, so that
    their order after the sort does not depend on the algorithm: every
    stable sorted arrangement of the two is the one of [js_sort]. *)
Lemma undated_rows_order_forced (l' : list GameRow) :
  l' ≡ₚ undated_rows →
  StronglySorted (λ a b, cmp_le (@compareGames sample_platform) a b = true) l' →
  (∀ z, z ∈ undated_rows →
        List.filter (tied (@compareGames sample_platform) z) l' =
        List.filter (tied (@compareGames sample_platform) z) undated_rows) →
  l' = js_sort (@compareGames sample_platform) undated_rows.
Proof.
  assert (Hcases : ∀ r, r ∈ undated_rows →
            r = default unlisted_row (undated_rows !! 0%nat) ∨
            r = default unlisted_row (undated_rows !! 1%nat)).
  { intros r Hr. unfold undated_rows in Hr.
    apply elem_of_cons in Hr as [->|Hr]; [by left|].
    apply elem_of_cons in Hr as [->|Hr]; [by right|].
    by apply elem_of_nil in Hr. }
  apply (js_sort_unique (@compareGames sample_platform)
           (λ r, r ∈ undated_rows)
           (λ a b, cmp_le (@compareGames sample_platform) a b = true)).
  - done.
  - intros a b [->| ->]%Hcases [->| ->]%Hcases; vm_compute; auto.
  - intros a b c [->| ->]%Hcases [->| ->]%Hcases [->| ->]%Hcases; by vm_compute.
  - by apply Forall_forall.
Qed.



(** C8 on the sample calendar. *)
Lemma regular_weeks_filtered_sample :
  getRegularSeasonWeekEntries (upstream_with sample_calendar week_sample) empty_world
  = (Ok (sample_calendar, Some 1), logged GetScoreboard empty_world) ∧
  (length sample_calendar ≤ 18)%nat ∧
  ∃ root cal,
    scoreboard (upstream_with sample_calendar week_sample) = Some root ∧
    calendar_entries root = Ok cal ∧
    ∀ e, e ∈ sample_calendar →
      e ∈ cal ∧
      ∃ l s d, label e = Some l ∧ digit_string l ∧
               startDate e = Some s ∧ s ≠ "" ∧
               endDate e = Some d ∧ d ≠ "".
Proof.
  split; [reflexivity|].
  exact (regular_weeks_filtered (upstream_with sample_calendar week_sample)
           empty_world (logged GetScoreboard empty_world)
           sample_calendar (Some 1) eq_refl).
Defined.

(** C9 on the sample calendar, whose labels are 1 and 2: week 99. *)
Lemma fetchWeekGrid_week_99 :
  ∃ grid,
    @fetchWeekGrid sample_platform (upstream_with sample_calendar week_sample)
      (Some "99") sample_config empty_world
    = (Ok grid, logged GetScoreboard empty_world) ∧
    week grid = Num 99 ∧
    games grid = [] ∧
    week_label grid = None ∧ grid_startDate grid = None ∧ grid_endDate grid = None.
Proof.
  assert (Hnone : ∀ e, e ∈ regular_entries sample_calendar →
            @labelled sample_platform
              (@requested_week sample_platform (Some "99")
                 (current_week (root_with sample_calendar))) e = false).
  { intros e He. apply list_elem_of_In in He.
    revert e He. apply find_none. by vm_compute. }
  destruct (@fetchWeekGrid_unmatched_week sample_platform
              (upstream_with sample_calendar week_sample) (Some "99") sample_config
              empty_world (root_with sample_calendar) sample_calendar
              eq_refl eq_refl Hnone)
    as (grid & Hrun & Hweek & Hnumber & _ & Hgames & Hlabel & Hstart & Hend).
  exists grid. by split_and!.
Defined.


(** C7 on the sample documents: the second request, ten minutes after the
    first, is answered from the store. *)
Lemma standings_twice_sample :
  @fetch sample_platform (upstream_with sample_calendar week_sample)
    standings_request sample_env first_clock empty_world = first_call ∧
  ∃ r2 configUrl c,
    @fetch sample_platform (upstream_with sample_calendar week_sample)
      standings_request sample_env second_clock (snd first_call)
    = (Ok r2, logged (GetConfig configUrl) (snd first_call)) ∧
    body r2 = body first_response ∧
    kv (snd first_call) !! standings_cache_key = Some c ∧
    body first_response = JsonBody (payload c) ∧
    (cache_valid (at_check first_clock) (kv empty_world !! standings_cache_key) = false →
     expires_at_ms c = @expiry (at_store first_clock) (@ttl_minutes sample_platform sample_env)).
Proof.
  assert (Hrun : @fetch sample_platform (upstream_with sample_calendar week_sample)
                   standings_request sample_env first_clock empty_world
                 = (Ok first_response, snd first_call))
    by (by vm_compute).
  split; [by vm_compute|].
  apply (@standings_twice_within_ttl sample_platform
           (upstream_with sample_calendar week_sample) sample_env standings_request
           first_clock second_clock empty_world (snd first_call) first_response).
  - reflexivity.
  - reflexivity.
  - exact Hrun.
  - reflexivity.
  - by vm_compute.
  - intros c Hc. vm_compute in Hc. injection Hc as <-. by vm_compute.
Defined.


(** C6 on the sample documents, at the two sides of the expiry of the entry
    that the first request stored: one millisecond before it the entry is
    served; at it the endpoint computes again. *)
Lemma cache_expiry_sample :
  (∃ c, cached_entry sample_env standings_cache_key (snd first_call) = Some c ∧
        expires_at_ms c = Num 1757266200900 ∧
        @endpoint_run sample_platform (upstream_with sample_calendar week_sample)
          sample_env last_valid_clock StandingsEndpoint sample_config (snd first_call)
        = (Ok (cached_response (payload c)), snd first_call)) ∧
  @endpoint_run sample_platform (upstream_with sample_calendar week_sample)
    sample_env expiry_clock StandingsEndpoint sample_config (snd first_call)
  = @endpoint_compute sample_platform (upstream_with sample_calendar week_sample)
      sample_env expiry_clock StandingsEndpoint sample_config (snd first_call).
Proof.
  destruct (kv (snd first_call) !! standings_cache_key) as [c|] eqn:Hc;
    [|by vm_compute in Hc].
  assert (Hexp : expires_at_ms c = Num 1757266200900).
  { vm_compute in Hc. by injection Hc as <-. }
  split.
  - exists c. split; [done|]. split; [done|].
    pose proof (@cache_entry_served_only_when_valid sample_platform
                  (upstream_with sample_calendar week_sample) sample_env
                  last_valid_clock StandingsEndpoint sample_config (snd first_call))
      as (_ & Hhit & _).
    apply (Hhit c 1757266200900); [done | done | done | by vm_compute].
  - pose proof (@cache_entry_served_only_when_valid sample_platform
                  (upstream_with sample_calendar week_sample) sample_env
                  expiry_clock StandingsEndpoint sample_config (snd first_call))
      as (_ & _ & Hmiss & _).
    apply Hmiss. right. exists c. split; [done|].
    intros t Ht. rewrite Hexp in Ht. injection Ht as <-. by vm_compute.
Defined.

(** * Further properties of the worker *)

(** ** The team-to-owner map, for every name *)



(** ** The rows of the grid *)



Lemma length_omap_le {A B} (f : A → option B) (l : list A) :
  (length (omap f l) ≤ length l)%nat.
Proof.
  induction l as [|x l IH]; [done|].
  change (omap f (x :: l)) with
    (match f x with Some y => y :: omap f l | None => omap f l end).
  destruct (f x); cbn [length]; lia.
Qed.




(** X3. The games of the grid of a window are the rows of its results in
    another order, none lost and none doubled, so that there are no more
    games than events; and when the kickoff time of every row is a number,
    the rows that the comparator does not tell apart (one kickoff time, away
    names and home names that compare equal) stand in the order of their
    events. *)
Theorem week_grid_stable_permutation `{ConsistentCollation} (up : Upstream)
    (weekNumber : option string) (config : Config) (w : World) (root : Root)
    (entry : CalendarEntry) (range : string) (weekData : WeekData) :
  window_fetched up weekNumber root entry range weekData →
  ∃ grid w',
    fetchWeekGrid up weekNumber config w = (Ok grid, w') ∧
    games grid ≡ₚ week_games (buildTeamToOwner config) weekData ∧
    (length (games grid) ≤ length (default [] (events weekData)))%nat ∧
    (Forall timed (games grid) →
     ∀ z, timed z →
       List.filter (tied compareGames z) (games grid) =
       List.filter (tied compareGames z)
         (week_games (buildTeamToOwner config) weekData)).
Proof.
  intros Hw. eexists _, _. split; [by apply fetchWeekGrid_window|].
  cbn [games window_grid]. split_and!.
  - apply js_sort_perm.
  - rewrite length_js_sort. apply length_omap_le.
  - intros Htimed z Hz. rewrite js_sort_perm in Htimed.
    apply (js_sort_stable compareGames timed game_order); [|by intros; eapply game_order_trans|done..].
    apply compareGames_order.
Qed.

(** X3 on the sample week. *)
Lemma week_grid_stable_permutation_sample :
  ∃ grid w',
    @fetchWeekGrid sample_platform (upstream_with sample_calendar week_sample)
      (Some "1") sample_config empty_world = (Ok grid, w') ∧
    games grid ≡ₚ week_games (buildTeamToOwner sample_config) week_sample ∧
    (length (games grid) ≤ length (default [] (events week_sample)))%nat ∧
    (Forall (@timed sample_platform) (games grid) →
     ∀ z, @timed sample_platform z →
       List.filter (tied (@compareGames sample_platform) z) (games grid) =
       List.filter (tied (@compareGames sample_platform) z)
         (week_games (buildTeamToOwner sample_config) week_sample)).
Proof.
  exact (@week_grid_stable_permutation sample_platform sample_collation
           (upstream_with sample_calendar week_sample) (Some "1") sample_config
           empty_world _ _ _ _ (sample_window_fetched week_sample)).
Defined.

(** X4. Whatever the upstream answers and whether it returns or throws,
    [fetchWeekGrid] leaves the KV store as it is and sends the request for
    the calendar, followed by at most one request, for the results of one
    window; a grid without a window label comes from the calendar request
    alone. *)
Theorem fetchWeekGrid_requests `{Platform} (up : Upstream)
    (weekNumber : option string) (config : Config) (w : World) :
  kv (snd (fetchWeekGrid up weekNumber config w)) = kv w ∧
  ∃ rs,
    log (snd (fetchWeekGrid up weekNumber config w)) = (log w ++ GetScoreboard :: rs)%list ∧
    (rs = [] ∨ ∃ range, rs = [GetScoreboardDates range]) ∧
    (∀ grid, fst (fetchWeekGrid up weekNumber config w) = Ok grid →
             week_label grid = None → rs = []).
Proof.
  split.
  { destruct (fetchWeekGrid up weekNumber config w) as [o w'] eqn:Hrun.
    apply (blind_kv _ _ _ _ (blind_fetchWeekGrid up weekNumber config) Hrun). }
  unfold fetchWeekGrid, bind. rewrite getRegularSeasonWeekEntries_run.
  destruct (scoreboard up) as [root|]; [|by exists []; split_and!; [|left|]].
  destruct (calendar_entries root) as [cal|]; [|by exists []; split_and!; [|left|]].
  cbn [fst snd].
  destruct (find _ (regular_entries cal)) as [entry|] eqn:Hfind;
    [|by exists []; split_and!; [|left|]].
  assert (Hin : entry ∈ regular_entries cal).
  { apply list_elem_of_In. by apply find_some in Hfind as [? _]. }
  apply regular_entries_kept in Hin as [_ Hreg].
  pose proof Hreg as [range Hrange]%regular_entry_range.
  rewrite fetchWindow_run, Hrange.
  assert (Hlabel : label entry ≠ None).
  { unfold regular_entry in Hreg. by destruct (label entry). }
  exists [GetScoreboardDates range].
  destruct (scoreboard_dates up range) as [weekData|];
    unfold ret; cbn [fst snd log logged].
  - split_and!; [by rewrite <- app_assoc | right; by exists range |].
    by intros grid [= <-].
  - split_and!; [by rewrite <- app_assoc | right; by exists range | done].
Qed.

(** ** The loop over the windows of the season *)

Section SeasonLoop.
Variable up : Upstream.

Lemma window_results_request e weekData :
  window_results up e = Some weekData →
  ∃ range, window_range e = Ok range ∧ scoreboard_dates up range = Some weekData ∧
           window_request e = Some (GetScoreboardDates range).
Proof.
  unfold window_results, window_request.
  destruct (window_range e) as [range|]; [|done]. intros Hdata. by exists range.
Qed.

Local Abbreviation season_body :=
  (λ winsByAbbr e,
     let* weekData := fetchWindow up e in
     ret (count_week winsByAbbr weekData)).

(** One turn of the loop. *)
Lemma season_loop_cons (e : CalendarEntry) (es : list CalendarEntry)
    (winsByAbbr : gmap string Z) (w : World) :
  for_each season_body winsByAbbr (e :: es) w =
  match window_range e with
  | Throw err => (Throw err, w)
  | Ok range =>
      match scoreboard_dates up range with
      | Some weekData =>
          for_each season_body (count_week winsByAbbr weekData) es
            (logged (GetScoreboardDates range) w)
      | None => (Throw (FetchFailed (request_url (GetScoreboardDates range))),
                 logged (GetScoreboardDates range) w)
      end
  end.
Proof.
  cbn [for_each]. unfold bind at 1. unfold bind at 1. rewrite fetchWindow_run.
  destruct (window_range e) as [range|]; [|done].
  by destruct (scoreboard_dates up range).
Qed.

Lemma omap_window_request_cons (e : CalendarEntry) (es : list CalendarEntry) :
  omap window_request (e :: es) =
  match window_range e with
  | Ok range => GetScoreboardDates range :: omap window_request es
  | Throw _ => omap window_request es
  end.
Proof.
  change (omap window_request (e :: es)) with
    (match window_request e with
     | Some r => r :: omap window_request es
     | None => omap window_request es
     end).
  unfold window_request. by destruct (window_range e).
Qed.


(** The loop stops at the first window whose request fails. *)
Lemma season_loop_abort (es1 es2 : list CalendarEntry) (e : CalendarEntry)
    (weeks1 : list WeekData) (range : string) (winsByAbbr : gmap string Z) (w : World) :
  Forall2 (λ e weekData, window_results up e = Some weekData) es1 weeks1 →
  window_range e = Ok range →
  scoreboard_dates up range = None →
  for_each season_body winsByAbbr (es1 ++ e :: es2) w
  = (Throw (FetchFailed (request_url (GetScoreboardDates range))),
     {| kv := kv w;
        log := log w ++ omap window_request es1 ++ [GetScoreboardDates range] |}).
Proof.
  intros Hweeks Hrange Hdata. revert winsByAbbr w.
  induction Hweeks as [|e1 weekData es1 weeks1 He _ IH]; intros winsByAbbr w.
  - cbn [app]. by rewrite season_loop_cons, Hrange, Hdata.
  - apply window_results_request in He as (range1 & Hrange1 & Hdata1 & _).
    rewrite <- app_comm_cons.
    rewrite season_loop_cons, omap_window_request_cons, Hrange1, Hdata1, IH.
    cbn [kv log logged]. by rewrite <- !app_assoc.
Qed.

(** Whatever the upstream answers, the loop sends requests for results
    only, one per window at most, and one per window when it returns. *)
Lemma season_loop_requests (es : list CalendarEntry) (winsByAbbr : gmap string Z)
    (w : World) :
  ∃ rs,
    log (snd (for_each season_body winsByAbbr es w)) = (log w ++ rs)%list ∧
    (length rs ≤ length es)%nat ∧
    Forall (λ q, ∃ range, q = GetScoreboardDates range) rs ∧
    (∀ wins, fst (for_each season_body winsByAbbr es w) = Ok wins →
             rs = omap window_request es ∧ length rs = length es).
Proof.
  revert winsByAbbr w. induction es as [|e es IH]; intros winsByAbbr w.
  - exists []. cbn. by rewrite app_nil_r.
  - rewrite season_loop_cons, omap_window_request_cons.
    destruct (window_range e) as [range|].
    + destruct (scoreboard_dates up range) as [weekData|].
      * destruct (IH (count_week winsByAbbr weekData)
                     (logged (GetScoreboardDates range) w))
          as (rs & Hlog & Hlen & Hall & Hok).
        exists (GetScoreboardDates range :: rs). split_and!.
        -- rewrite Hlog. cbn [log logged]. by rewrite <- app_assoc.
        -- cbn [length]. lia.
        -- constructor; [by exists range | done].
        -- intros wins [-> Hlen']%Hok. cbn [length]. by rewrite Hlen'.
      * exists [GetScoreboardDates range]. cbn [fst snd log logged length].
        split_and!; [done | lia | | done].
        constructor; [by exists range | constructor].
    + exists []. cbn [fst snd length]. rewrite app_nil_r.
      split_and!; [done | lia | constructor | done].
Qed.


(** The calendar request, then the loop. *)
Lemma computeTeamWinsForSeason_run (seasonYear : Z) (w : World) :
  computeTeamWinsForSeason up seasonYear w =
  match scoreboard up with
  | None => (Throw (FetchFailed ESPN_SCOREBOARD), logged GetScoreboard w)
  | Some root =>
      match calendar_entries root with
      | Ok cal =>
          for_each season_body initial_wins (regular_entries cal)
            (logged GetScoreboard w)
      | Throw e => (Throw e, logged GetScoreboard w)
      end
  end.
Proof.
  unfold computeTeamWinsForSeason. unfold bind at 1.
  rewrite getRegularSeasonWeekEntries_run.
  destruct (scoreboard up) as [root|]; [|done].
  by destruct (calendar_entries root).
Qed.


End SeasonLoop.

Lemma length_regular_entries (cal : list CalendarEntry) :
  (length (regular_entries cal) ≤ 18)%nat.
Proof. unfold regular_entries. rewrite length_take. lia. Qed.




(** X5. Whatever the upstream answers and whether it returns or throws,
    [computeTeamWinsForSeason] leaves the KV store as it is and sends the
    request for the calendar followed by requests for the results of
    windows only, at most eighteen of them; when it returns a table it has
    sent one request for each regular-season window, in the order of the
    calendar. *)
Theorem season_requests (up : Upstream) (seasonYear : Z) (w : World) :
  kv (snd (computeTeamWinsForSeason up seasonYear w)) = kv w ∧
  ∃ rs,
    log (snd (computeTeamWinsForSeason up seasonYear w))
    = (log w ++ GetScoreboard :: rs)%list ∧
    (length rs ≤ 18)%nat ∧
    Forall (λ q, ∃ range, q = GetScoreboardDates range) rs ∧
    (∀ wins, fst (computeTeamWinsForSeason up seasonYear w) = Ok wins →
       ∃ root cal,
         scoreboard up = Some root ∧ calendar_entries root = Ok cal ∧
         rs = omap window_request (regular_entries cal) ∧
         length rs = length (regular_entries cal)).
Proof.
  split.
  { destruct (computeTeamWinsForSeason up seasonYear w) as [o w'] eqn:Hrun.
    apply (blind_kv _ _ _ _ (blind_computeTeamWinsForSeason up seasonYear) Hrun). }
  rewrite computeTeamWinsForSeason_run.
  destruct (scoreboard up) as [root|];
    [|by exists []; split_and!; [| cbn; lia | constructor |]].
  destruct (calendar_entries root) as [cal|] eqn:Hcal;
    [|by exists []; split_and!; [| cbn; lia | constructor |]].
  destruct (season_loop_requests up (regular_entries cal) initial_wins
              (logged GetScoreboard w)) as (rs & Hlog & Hlen & Hall & Hok).
  exists rs. split_and!.
  - rewrite Hlog. cbn [log logged]. by rewrite <- app_assoc.
  - pose proof (length_regular_entries cal). lia.
  - done.
  - intros wins [-> Hlen']%Hok. by exists root, cal.
Qed.

(** X6. When the request for the results of one window fails,
    [computeTeamWinsForSeason] throws the error of that request: it has sent
    the calendar request, the requests of the windows before the failing one
    and the failing request, and none for a later window; the wins counted
    so far are lost and the KV store is as before. *)
Theorem season_stops_at_failed_window (up : Upstream) (seasonYear : Z)
    (w : World) (root : Root) (cal es1 es2 : list CalendarEntry) (e : CalendarEntry)
    (weeks1 : list WeekData) (range : string) :
  scoreboard up = Some root →
  calendar_entries root = Ok cal →
  regular_entries cal = (es1 ++ e :: es2)%list →
  Forall2 (λ e weekData, window_results up e = Some weekData) es1 weeks1 →
  window_range e = Ok range →
  scoreboard_dates up range = None →
  computeTeamWinsForSeason up seasonYear w
  = (Throw (FetchFailed (request_url (GetScoreboardDates range))),
     {| kv := kv w;
        log := log w ++ GetScoreboard :: omap window_request es1
                     ++ [GetScoreboardDates range] |}).
Proof.
  intros Hroot Hcal Hes Hweeks Hrange Hdata.
  rewrite computeTeamWinsForSeason_run, Hroot, Hcal, Hes.
  rewrite (season_loop_abort up es1 es2 e weeks1 range) by done.
  cbn [kv log logged]. by rewrite <- app_assoc.
Qed.

(** X6 on a calendar of three weeks whose second week has no results: the
    third week is not requested. *)
Lemma season_stops_at_failed_window_sample :
  computeTeamWinsForSeason failing_upstream 2025 empty_world
  = (Throw (FetchFailed (request_url (GetScoreboardDates "20250910-20250917"))),
     {| kv := ∅;
        log := [ GetScoreboard;
                 GetScoreboardDates "20250904-20250910";
                 GetScoreboardDates "20250910-20250917" ] |}).
Proof.
  apply (season_stops_at_failed_window failing_upstream 2025
           empty_world (root_with three_week_calendar) three_week_calendar
           [window "1" "2025-09-04T07:00Z" "2025-09-10T06:59Z"]
           [window "3" "2025-09-17T07:00Z" "2025-09-24T06:59Z"]
           (window "2" "2025-09-10T07:00Z" "2025-09-17T06:59Z")
           [week_sample] "20250910-20250917").
  - reflexivity.
  - reflexivity.
  - reflexivity.
  - repeat constructor.
  - reflexivity.
  - reflexivity.
Defined.



(** ** The standings *)

(** The reduction of line 164 adds up the wins of the rows. *)
Lemma total_wins_sum (rows : list TeamRow) (a : Z) :
  foldl (λ a b, a + wins b) a rows = a + wins_sum rows.
Proof.
  revert a. induction rows as [|r rows IH]; intros a; cbn [foldl wins_sum foldr].
  - lia.
  - rewrite IH. cbn [wins_sum]. unfold wins_sum. lia.
Qed.













(** ** The handler *)

Section Routes.
Context `{Platform} (up : Upstream).


(** The handler, route by route. *)
Lemma fetch_run request env clock w :
  fetch up request env clock w =
  if negb (String.prefix "/api/" (pathname request)) then (Ok not_found, w)
  else
    match or_null (CONFIG_URL env) with
    | None => (Ok missing_config, w)
    | Some configUrl =>
        match config_at up configUrl with
        | None => (Throw (FetchFailed configUrl), logged (GetConfig configUrl) w)
        | Some config =>
            if String.eqb (pathname request) "/api/week"
            then endpoint_run up env clock (WeekEndpoint (week_param request)) config
                   (logged (GetConfig configUrl) w)
            else if String.eqb (pathname request) "/api/standings"
            then endpoint_run up env clock StandingsEndpoint config
                   (logged (GetConfig configUrl) w)
            else (Ok not_found, logged (GetConfig configUrl) w)
        end
    end.
Proof.
  unfold fetch.
  destruct (negb (String.prefix "/api/" (pathname request))); [done|].
  destruct (or_null (CONFIG_URL env)) as [configUrl|]; [|done].
  unfold bind at 1. unfold fetchJson, bind, send, ret, throw.
  destruct (config_at up configUrl) as [config|]; [|done].
  destruct (String.eqb (pathname request) "/api/week"); [done|].
  by destruct (String.eqb (pathname request) "/api/standings").
Qed.

End Routes.


(** ** One entry, two requests *)

Section Entries.
Context `{Platform} (up : Upstream).

(** With a KV store, a response of an endpoint is the payload of the entry
    that the run leaves under the key. *)
Lemma endpoint_run_entry env clock ep config w r w' :
  POOL_KV env = true →
  endpoint_run up env clock ep config w = (Ok r, w') →
  ∃ c, kv w' !! endpoint_key ep = Some c ∧ body r = JsonBody (payload c).
Proof.
  intros Hkv. rewrite endpoint_run_check. unfold cached_entry. rewrite Hkv.
  pose proof (endpoint_compute_shape up env clock ep config w) as (Hok & _ & _).
  rewrite Hkv in Hok.
  assert (Hcompute : endpoint_compute up env clock ep config w = (Ok r, w') →
            ∃ c, kv w' !! endpoint_key ep = Some c ∧ body r = JsonBody (payload c)).
  { intros (p & -> & ->)%Hok. eexists. by rewrite lookup_insert_eq. }
  destruct (kv w !! endpoint_key ep) as [c|] eqn:Hc; [|done].
  destruct (cache_valid (at_check clock) (Some c)); [|done].
  intros [= <- <-]. by exists c.
Qed.

(** A valid entry under the key is served, and nothing else happens. *)
Lemma endpoint_run_hit env clock ep config w c :
  POOL_KV env = true →
  kv w !! endpoint_key ep = Some c →
  cache_valid (at_check clock) (Some c) = true →
  endpoint_run up env clock ep config w = (Ok (cached_response (payload c)), w).
Proof.
  intros Hkv Hc Hvalid. rewrite endpoint_run_check. unfold cached_entry.
  by rewrite Hkv, Hc, Hvalid.
Qed.


End Entries.


(** X12. With a KV store, after a request to [/api/week] was answered with
    status 200, a second request to [/api/week] whose [week] parameter is
    the same once ["auto"] is put for an absent or empty one, made while the
    entry under the key is valid, gets the body of the first answer from the
    cache, with no request other than the load of the configuration and
    without the [access-control-allow-origin] header.  So the answer to
    [?week=auto], whose week is no number, is also what a request without a
    week gets. *)
Theorem week_twice_shared_key `{Platform} (up : Upstream) (env : Env)
    (request1 request2 : HttpRequest) (clock1 clock2 : Clock) (w0 w1 : World)
    (r1 : Response) :
  POOL_KV env = true →
  pathname request1 = "/api/week" →
  pathname request2 = "/api/week" →
  default "auto" (or_null (week_param request1))
  = default "auto" (or_null (week_param request2)) →
  fetch up request1 env clock1 w0 = (Ok r1, w1) →
  status r1 = 200 →
  0 <= at_check clock2 →
  (∀ c, kv w1 !! week_cache_key (week_param request1) = Some c →
        js_lt (Num (at_check clock2)) (expires_at_ms c) = true) →
  ∃ r2 configUrl,
    fetch up request2 env clock2 w1 = (Ok r2, logged (GetConfig configUrl) w1) ∧
    body r2 = body r1 ∧
    headers r2 = json_headers.
Proof.
  intros Hkv Hpath1 Hpath2 Hparam Hrun Hstatus Hnow Hfresh.
  assert (Hkey : week_cache_key (week_param request1)
                 = week_cache_key (week_param request2)).
  { unfold week_cache_key. by rewrite Hparam. }
  rewrite fetch_run, Hpath1 in Hrun. cbn [String.prefix negb String.eqb] in Hrun.
  rewrite fetch_run, Hpath2. cbn [String.prefix negb String.eqb].
  destruct (or_null (CONFIG_URL env)) as [url|]; [|by injection Hrun as <- <-].
  destruct (config_at up url) as [config|]; [|done].
  change (Ascii.eqb _ _ && _) with true in Hrun.
  change (Ascii.eqb _ _ && _) with true. cbn match in *.
  apply endpoint_run_entry in Hrun as (c & Hc & Hbody); [|done].
  cbn [endpoint_key] in Hc.
  exists (cached_response (payload c)), url. split_and!; [|done..].
  apply endpoint_run_hit; [done | cbn [endpoint_key kv logged]; by rewrite <- Hkey |].
  apply cache_valid_Some. exists c.
  pose proof (Hfresh c Hc) as (t & -> & Hlt)%js_lt_Num.
  split_and!; [done | | by cbn; apply Z.ltb_lt].
  cbn. apply negb_true_iff, Z.eqb_neq. lia.
Qed.

(** X12 on the sample upstream: the answer to [?week=auto] is the grid of
    no week, and ten minutes later a request without a week gets it from the
    cache. *)
Lemma week_twice_shared_key_sample :
  body auto_response
  = JsonBody (WeekPayload (Some 2025) "Sep 07, 2025, 12:00 PM" (Num 30)
                "America/Chicago" (empty_grid NaN (Some 1))) ∧
  ∃ r2 configUrl,
    @fetch sample_platform (upstream_with sample_calendar week_sample)
      week_request sample_env second_clock (snd auto_call)
    = (Ok r2, logged (GetConfig configUrl) (snd auto_call)) ∧
    body r2 = body auto_response ∧
    headers r2 = json_headers.
Proof.
  split; [reflexivity|].
  apply (@week_twice_shared_key sample_platform
           (upstream_with sample_calendar week_sample) sample_env
           auto_request week_request first_clock second_clock empty_world
           (snd auto_call) auto_response).
  - reflexivity.
  - reflexivity.
  - reflexivity.
  - reflexivity.
  - reflexivity.
  - reflexivity.
  - simpl. lia.
  - intros c. vm_compute. by intros [= <-].
Defined.



(** X14. Every response of an endpoint carries the content type of JSON and
    [cache-control: no-store]; it carries [access-control-allow-origin]
    exactly when it was computed, that is when the store had no valid entry
    under the key at the check: a response served from the cache is without
    that header.  An endpoint throws only after such a miss. *)
Theorem cors_only_when_computed `{Platform} (up : Upstream) (env : Env)
    (clock : Clock) (ep : Endpoint) (config : Config) (w : World) :
  match fst (endpoint_run up env clock ep config w) with
  | Ok r =>
      Forall (λ h, h ∈ headers r) json_headers ∧
      (cors_header ∈ headers r
       ↔ cache_valid (at_check clock) (cached_entry env (endpoint_key ep) w) = false)
  | Throw _ =>
      cache_valid (at_check clock) (cached_entry env (endpoint_key ep) w) = false
  end.
Proof.
  pose proof (endpoint_compute_shape up env clock ep config w) as (Hok & _ & _).
  assert (Hcompute : ∀ b,
    b = false →
    match fst (endpoint_compute up env clock ep config w) with
    | Ok r => Forall (λ h, h ∈ headers r) json_headers ∧
              (cors_header ∈ headers r ↔ b = false)
    | Throw _ => b = false
    end).
  { intros b ->.
    destruct (endpoint_compute up env clock ep config w) as [[r|e] w'] eqn:Hc; [|done].
    destruct (Hok r w' eq_refl) as (p & -> & _). cbn [fst headers computed_response].
    split; [|split; [done|intros _]].
    - unfold json_headers. repeat constructor; by_evaluation.
    - unfold cors_header, json_headers. by_evaluation. }
  rewrite endpoint_run_check.
  destruct (cached_entry env (endpoint_key ep) w) as [c|]; [|by apply Hcompute].
  destruct (cache_valid (at_check clock) (Some c)) eqn:Hvalid; [|by apply Hcompute].
  cbn [fst headers cached_response]. split.
  - unfold json_headers. repeat constructor; by_evaluation.
  - split; [|done]. unfold cors_header, json_headers.
    intros Hin. exfalso. revert Hin. apply (bool_decide_unpack (_ ∉ _)). by vm_compute.
Qed.

(** ** Calendars and windows *)

Lemma wins_sum_zero (rows : list TeamRow) :
  Forall (λ t, wins t = 0) rows → wins_sum rows = 0.
Proof.
  induction 1 as [|r rows Hr _ IH]; [done|].
  cbn [wins_sum foldr]. fold (wins_sum rows). lia.
Qed.

Lemma initial_wins_zero (t : string) : wins (team_row initial_wins t) = 0.
Proof.
  cbn [team_row wins]. rewrite initial_wins_lookup. by destruct (bool_decide _).
Qed.

(** X15. When the calendar of the scoreboard has no regular-season window,
    as when the scoreboard comes without leagues, nothing fails: the season
    is the table with every code of [NAME_TO_ABBR] at zero, after the
    calendar request alone; the grid of every week is the grid without games
    and without a window; and the standings give every team and every owner
    zero wins. *)
Theorem season_without_windows `{Platform} (up : Upstream) (root : Root)
    (cal : list CalendarEntry) :
  scoreboard up = Some root →
  calendar_entries root = Ok cal →
  regular_entries cal = [] →
  (∀ seasonYear w,
     computeTeamWinsForSeason up seasonYear w
     = (Ok initial_wins, logged GetScoreboard w)) ∧
  (∀ weekNumber config w,
     fetchWeekGrid up weekNumber config w
     = (Ok (empty_grid (requested_week weekNumber (current_week root))
              (current_week root)),
        logged GetScoreboard w)) ∧
  (∀ config os,
     owners config = Some os →
     ∃ st, buildResponse config initial_wins = Ok st ∧
           Forall (λ r, total_wins r = 0 ∧ Forall (λ t, wins t = 0) (teams r))
                  (standings st) ∧
           Forall (λ t, wins t = 0) (unowned_rows st)).
Proof.
  intros Hroot Hcal Hnone. split_and!.
  - intros seasonYear w.
    by rewrite computeTeamWinsForSeason_run, Hroot, Hcal, Hnone.
  - intros weekNumber config w.
    apply (fetchWeekGrid_no_window up weekNumber config w root cal); [done..|].
    by rewrite Hnone.
  - intros config os Hos. unfold buildResponse. rewrite Hos.
    eexists. split; [done|]. cbn [standings unowned_rows].
    assert (Hzero : ∀ ts, Forall (λ t, wins t = 0) (team_row initial_wins <$> ts)).
    { intros ts. apply Forall_fmap, Forall_forall. intros t _.
      apply initial_wins_zero. }
    split; [|apply Hzero].
    rewrite js_sort_perm. apply Forall_fmap, Forall_forall. intros e _.
    cbn [owner_row total_wins teams compose]. split; [|apply Hzero].
    rewrite total_wins_sum, Z.add_0_l. apply wins_sum_zero, Hzero.
Qed.

(** X15 on a scoreboard without leagues. *)
Lemma season_without_windows_sample :
  (∀ seasonYear w,
     computeTeamWinsForSeason bare_upstream seasonYear w
     = (Ok initial_wins, logged GetScoreboard w)) ∧
  (∀ weekNumber config w,
     @fetchWeekGrid sample_platform bare_upstream weekNumber config w
     = (Ok (empty_grid (@requested_week sample_platform weekNumber
                          (current_week bare_root))
              (current_week bare_root)),
        logged GetScoreboard w)) ∧
  (∀ config os,
     owners config = Some os →
     ∃ st, @buildResponse sample_platform config initial_wins = Ok st ∧
           Forall (λ r, total_wins r = 0 ∧ Forall (λ t, wins t = 0) (teams r))
                  (standings st) ∧
           Forall (λ t, wins t = 0) (unowned_rows st)).
Proof.
  apply (@season_without_windows sample_platform bare_upstream bare_root []).
  - reflexivity.
  - reflexivity.
  - reflexivity.
Defined.

(** X16. In every grid that [fetchWeekGrid] returns, the week is the number
    of the requested string when there is a non-empty one, else the current
    week of the scoreboard, else one, and the current week is never zero.  A
    grid with a window label has a label of decimal digits whose number is
    the week of the grid, so that the week is a number then, and it has a
    non-empty start date and end date; a grid without a window label has no
    dates and no games. *)
Theorem grid_window_consistent `{Platform} (up : Upstream) (weekNumber : option string)
    (config : Config) (w w' : World) (grid : WeekGrid) :
  fetchWeekGrid up weekNumber config w = (Ok grid, w') →
  week grid = requested_week weekNumber (currentWeek grid) ∧
  currentWeek grid ≠ Some 0 ∧
  (∀ l, week_label grid = Some l →
        digit_string l ∧
        (∃ n, Number_ l = Num n ∧ week grid = Num n) ∧
        field_truthy (grid_startDate grid) = true ∧
        field_truthy (grid_endDate grid) = true) ∧
  (week_label grid = None →
   grid_startDate grid = None ∧ grid_endDate grid = None ∧ games grid = []).
Proof.
  intros (root & Hroot & Hcase)%fetchWeekGrid_Ok. cbn zeta in Hcase.
  assert (Hcurrent : current_week root ≠ Some 0).
  { unfold current_week. destruct (week_number root) as [n|]; [|done].
    destruct (n =? 0) eqn:Hn; [done|]. apply Z.eqb_neq in Hn. congruence. }
  destruct Hcase as [[_ ->]|(entry & range & weekData & Hw & ->)].
  - cbn [empty_grid week currentWeek week_label grid_startDate grid_endDate games].
    by split_and!.
  - cbn [window_grid week currentWeek week_label grid_startDate grid_endDate games].
    destruct Hw as (cal & _ & _ & Hfind & _).
    apply find_some in Hfind as [Hin Hlabelled].
    apply list_elem_of_In, regular_entries_kept in Hin as [_ Hreg].
    unfold regular_entry in Hreg. unfold labelled in Hlabelled.
    destruct (label entry) as [l|]; [|done].
    apply andb_true_iff in Hreg as [[[_ Hdigits]%andb_true_iff Hstart]%andb_true_iff Hend].
    split_and!; [done | done | | done].
    intros l' [= <-]. split_and!; [by apply matches_digits_spec | | done | done].
    cbn [from_option] in Hlabelled. unfold strict_eq in Hlabelled.
    destruct (Number_ l) as [|n]; [done|].
    destruct (requested_week _ _) as [|m]; [done|].
    apply Z.eqb_eq in Hlabelled as ->. by exists m.
Qed.

(** X16 on the first week of the sample. *)
Lemma grid_window_consistent_sample :
  week sample_grid = @requested_week sample_platform (Some "1") (currentWeek sample_grid) ∧
  currentWeek sample_grid ≠ Some 0 ∧
  (∀ l, week_label sample_grid = Some l →
        digit_string l ∧
        (∃ n, @Number_ sample_platform l = Num n ∧ week sample_grid = Num n) ∧
        field_truthy (grid_startDate sample_grid) = true ∧
        field_truthy (grid_endDate sample_grid) = true) ∧
  (week_label sample_grid = None →
   grid_startDate sample_grid = None ∧ grid_endDate sample_grid = None ∧
   games sample_grid = []).
Proof.
  apply (@grid_window_consistent sample_platform
           (upstream_with sample_calendar week_sample) (Some "1") sample_config
           empty_world week1_world sample_grid).
  by vm_compute.
Defined.

(** X17. The entries that [getRegularSeasonWeekEntries] keeps are entries of
    the calendar in the order of the calendar: they are the first entries
    that pass the filter, all of them when at most eighteen pass and exactly
    eighteen otherwise, so that an entry which passes the filter is kept
    whenever fewer than eighteen entries before it pass. *)
Theorem regular_entries_first_eighteen (cal : list CalendarEntry) :
  sublist (regular_entries cal) cal ∧
  (∃ rest, List.filter regular_entry cal = (regular_entries cal ++ rest)%list ∧
           (rest ≠ [] → length (regular_entries cal) = 18%nat)) ∧
  (∀ i e, cal !! i = Some e → regular_entry e = true →
          (length (List.filter regular_entry (take i cal)) < 18)%nat →
          e ∈ regular_entries cal).
Proof.
  unfold regular_entries. split_and!.
  - transitivity (List.filter regular_entry cal); [apply sublist_take|].
    induction cal as [|e cal IH]; [done|]. cbn [List.filter].
    destruct (regular_entry e); [by apply sublist_skip | by apply sublist_cons].
  - exists (drop 18 (List.filter regular_entry cal)). split.
    + by rewrite take_drop.
    + intros Hrest. rewrite length_take.
      destruct (decide (18 ≤ length (List.filter regular_entry cal))%nat); [lia|].
      destruct Hrest. apply drop_ge. lia.
  - intros i e Hi He Hbefore.
    rewrite <- (take_drop_middle cal i e Hi), List.filter_app.
    cbn [List.filter]. rewrite He.
    set (before := List.filter regular_entry (take i cal)) in *.
    rewrite firstn_app.
    destruct (18 - length before)%nat as [|k] eqn:Hk; [lia|].
    cbn [firstn]. apply elem_of_app. right. by left.
Qed.
